(** * LinkinVet dashboard: the data tables, the derived metrics and the
    scenario estimator of [dashboard.py], embedded in Rocq.

    Python's [float] is IEEE 754 binary64; it is modelled by Rocq's primitive
    [float], whose operations are the same correctly rounded (to nearest, ties
    to even) binary64 operations.  Python's [int] is [Z]; the integer columns
    of a pandas frame are int64, and every integer of the script is far inside
    that range. *)

From Stdlib Require Import ZArith QArith Qabs List String Ascii Bool Lia.
From Stdlib Require Import Floats Uint63 DecimalString.
From Stdlib Require Import Permutation Sorted DecimalN DecimalPos.
Import ListNotations.

#[local] Set Warnings "-inexact-float".
#[local] Open Scope Z_scope.

(* ------------------------------------------------------------------ *)
(** ** Binary64 helpers *)

Module F64.

(** [float(n)] for an [int]: the binary64 value nearest to [n], ties to
    even; exact below 2^53.  Past the largest float the rounding gives an
    infinity, where Python raises [OverflowError]: the integers converted
    here are int64 cells, module constants and slider positions. *)
Definition of_int (z : Z) : float :=
  SF2Prim (binary_normalize prec emax z 0 false).

(** The binary64 value nearest to [n / d], ties to even, for integers [n]
    and [d <> 0]: the division rounds once, whatever the size of [n]. *)
Definition of_ratio (n d : Z) : float :=
  let sf (k : Z) :=
    match k with
    | Z0 => S754_zero false
    | Zpos p => S754_finite false p 0
    | Zneg p => S754_finite true p 0
    end in
  SF2Prim (SFdiv prec emax (sf n) (sf d)).

(** The exact value of a finite float, as [(n, e)] standing for [n * 2^e]. *)
Definition exact (x : float) : option (Z * Z) :=
  match Prim2SF x with
  | S754_zero _ => Some (0, 0)
  | S754_finite s m e => Some (cond_Zopp s (Zpos m), e)
  | S754_infinity _ | S754_nan => None
  end.

Definition to_Q (x : float) : option Q :=
  match exact x with
  | Some (n, e) =>
      Some (if 0 <=? e then inject_Z (n * 2 ^ e) else Qmake n (Z.to_pos (2 ^ (- e))))
  | None => None
  end.

Definition is_finite (x : float) : bool :=
  match exact x with Some _ => true | None => false end.

(** [n / d] rounded to the nearest integer, ties to the even one ([0 < d]). *)
Definition rne_div (n d : Z) : Z :=
  let q := n / d in
  let r := n mod d in
  match 2 * r ?= d with
  | Lt => q
  | Gt => q + 1
  | Eq => if Z.even q then q else q + 1
  end.

(** The exact value times [10^k], rounded half-even to an integer: what a
    correctly rounded conversion to [k] decimals yields. *)
Definition round_scaled (k : nat) (x : float) : option Z :=
  match exact x with
  | Some (n, e) =>
      let n10 := n * 10 ^ Z.of_nat k in
      Some (if 0 <=? e then n10 * 2 ^ e else rne_div n10 (2 ^ (- e)))
  | None => None
  end.

(** C's [rint] in the default rounding mode (NumPy's [np.rint]). *)
Definition rint (x : float) : float :=
  match Prim2SF x with
  | S754_finite s m e =>
      if e <? 0 then
        let n := rne_div (Zpos m) (2 ^ (- e)) in
        if n =? 0 then (if s then PrimFloat.neg_zero else PrimFloat.zero)
        else if s then PrimFloat.opp (of_int n) else of_int n
      else x
  | _ => x
  end.

(** Python's built-in [max(x, 0)]: the first argument is kept unless the
    second compares greater ([0 > x]); the integer [0] it then returns is
    read as the float of the same value. *)
Definition max0 (x : float) : float :=
  if PrimFloat.ltb x PrimFloat.zero then PrimFloat.zero else x.

End F64.

(* ------------------------------------------------------------------ *)
(** ** Python's number formatting *)

Module Fmt.
#[local] Open Scope string_scope.

(** Decimal digits of a natural number. *)
Definition digits (n : Z) : string := NilZero.string_of_uint (N.to_uint (Z.to_N n)).

(** The [,] option of the format mini-language: a comma between groups
    of three digits, counted from the right.  [group_rev] works on the
    reversed digit list; [i] digits are already in the current group. *)
Fixpoint group_rev (i : nat) (l : list ascii) : list ascii :=
  match l with
  | [] => []
  | c :: tl =>
      match tl, i with
      | _ :: _, 2%nat => c :: ","%char :: group_rev 0 tl
      | _, _ => c :: group_rev (S i) tl
      end
  end.

Definition group3 (s : string) : string :=
  string_of_list_ascii (rev (group_rev 0 (rev (list_ascii_of_string s)))).

Fixpoint zeros (n : nat) : string :=
  match n with O => "" | S n' => "0" ++ zeros n' end.

Definition pad_left (k : nat) (s : string) : string :=
  zeros (k - String.length s) ++ s.

(** [f"{n:,}"] and [f"{n}"] for an [int]. *)
Definition int_grouped (n : Z) : string :=
  (if (n <? 0)%Z then "-" else "") ++ group3 (digits (Z.abs n)).

Definition int_plain (n : Z) : string :=
  (if (n <? 0)%Z then "-" else "") ++ digits (Z.abs n).

(** [f"{x:.kf}"], and [f"{x:,.kf}"] when [comma] is set: the exact value is
    rounded half-even to [k] decimals (CPython converts correctly rounded). *)
Definition fixed (comma : bool) (k : nat) (x : float) : string :=
  match F64.round_scaled k x with
  | Some n =>
      let a := Z.abs n in
      let p := (10 ^ Z.of_nat k)%Z in
      let ip := digits (a / p)%Z in
      (if PrimFloat.get_sign x then "-" else "")
        ++ (if comma then group3 ip else ip)
        ++ match k with
           | O => ""
           | _ => "." ++ pad_left k (digits (a mod p)%Z)
           end
  | None =>
      if PrimFloat.is_nan x then "nan"
      else if PrimFloat.get_sign x then "-inf" else "inf"
  end.

(** [s.replace(old, new)] for one-character [old] and [new]. *)
Fixpoint replace (old new : ascii) (s : string) : string :=
  match s with
  | EmptyString => EmptyString
  | String c tl => String (if Ascii.eqb c old then new else c) (replace old new tl)
  end.

End Fmt.

(* ------------------------------------------------------------------ *)
(** ** Exceptions *)

Inductive error :=
| KeyError (key : string) | IndexError | ValueError | TypeError | OverflowError.

Inductive result (A : Type) := Ok (a : A) | Raise (e : error).
Arguments Ok {A} a.
Arguments Raise {A} e.

Definition rbind {A B} (r : result A) (k : A -> result B) : result B :=
  match r with
  | Ok a => k a
  | Raise e => Raise e
  end.

Fixpoint rmap {A B} (f : A -> result B) (l : list A) : result (list B) :=
  match l with
  | [] => Ok []
  | a :: tl => rbind (f a) (fun b => rbind (rmap f tl) (fun bs => Ok (b :: bs)))
  end.

(** [int(x)] for a float: truncation towards zero; an infinity raises
    [OverflowError] and a NaN [ValueError]. *)
Definition int_of_float (x : float) : result Z :=
  match F64.exact x with
  | Some (n, e) => Ok (if 0 <=? e then n * 2 ^ e else Z.quot n (2 ^ (- e)))
  | None => Raise (if PrimFloat.is_nan x then ValueError else OverflowError)
  end.

(* ------------------------------------------------------------------ *)
(** ** A model of the pandas frames the script uses

    A frame is a list of column labels and a list of rows; each row carries
    its index label and one cell per column.  Integer columns hold [CInt]
    (int64), float columns [CFloat] (float64, NaN for a missing value),
    object columns [CStr]. *)

Module Pandas.

Inductive cell := CStr (s : string) | CInt (z : Z) | CFloat (x : float).

Record DataFrame := { columns : list string; rows : list (Z * list cell) }.

Definition Series := list cell.

Definition is_na (c : cell) : bool :=
  match c with CFloat x => PrimFloat.is_nan x | _ => false end.

Definition to_float (c : cell) : result float :=
  match c with
  | CInt z => Ok (F64.of_int z)
  | CFloat x => Ok x
  | CStr _ => Raise TypeError
  end.

(** [a == b] on cells, as the element-wise comparison of a column with a
    scalar computes it. *)
Definition cell_eqb (a b : cell) : bool :=
  match a, b with
  | CStr s, CStr t => String.eqb s t
  | CInt x, CInt y => x =? y
  | CFloat x, CFloat y => PrimFloat.eqb x y
  | CInt x, CFloat y => PrimFloat.eqb (F64.of_int x) y
  | CFloat x, CInt y => PrimFloat.eqb x (F64.of_int y)
  | _, _ => false
  end.

(** [a < b] for sorting; a missing value sorts below everything, so that it
    comes last in a descending sort ([na_position="last"]). *)
Definition cell_ltb (a b : cell) : bool :=
  if is_na a then negb (is_na b)
  else if is_na b then false
  else
    match a, b with
    | CStr s, CStr t => String.ltb s t
    | CInt x, CInt y => x <? y
    | CFloat x, CFloat y => PrimFloat.ltb x y
    | CInt x, CFloat y => PrimFloat.ltb (F64.of_int x) y
    | CFloat x, CInt y => PrimFloat.ltb x (F64.of_int y)
    | _, _ => false
    end.

Fixpoint position (name : string) (cols : list string) : option nat :=
  match cols with
  | [] => None
  | c :: tl => if String.eqb c name then Some O
               else option_map S (position name tl)
  end.

Definition col_pos (df : DataFrame) (name : string) : result nat :=
  match position name (columns df) with
  | Some i => Ok i
  | None => Raise (KeyError name)
  end.

Definition cell_at (i : nat) (r : Z * list cell) : cell :=
  nth i (snd r) (CFloat PrimFloat.nan).

(** [df[name]] *)
Definition getitem (df : DataFrame) (name : string) : result Series :=
  rbind (col_pos df name) (fun i => Ok (map (cell_at i) (rows df))).

(** Keys of a list of dicts in first-seen order. *)
Definition union_keys (ds : list (list (string * cell))) : list string :=
  fold_left
    (fun acc k => if existsb (String.eqb k) acc then acc else acc ++ [k])
    (flat_map (map fst) ds) [].

Fixpoint dict_get (k : string) (d : list (string * cell)) : option cell :=
  match d with
  | [] => None
  | (k', v) :: tl => if String.eqb k' k then Some v else dict_get k tl
  end.

Fixpoint number_from {A} (i : Z) (l : list A) : list (Z * A) :=
  match l with
  | [] => []
  | a :: tl => (i, a) :: number_from (i + 1) tl
  end.

(** [pd.DataFrame(list_of_dicts)]: one row per dict, a RangeIndex, the
    columns in the order the keys are first seen.  The dicts of the script all
    have the same two keys; a key missing from a dict leaves a NaN cell (the
    conversion of the rest of such a column to float64 is not modelled). *)
Definition of_dicts (ds : list (list (string * cell))) : DataFrame :=
  let cols := union_keys ds in
  {| columns := cols;
     rows := number_from 0
               (map (fun d => map (fun k => match dict_get k d with
                                            | Some v => v
                                            | None => CFloat PrimFloat.nan
                                            end) cols) ds) |}.

Fixpoint drop_nth {A} (i : nat) (l : list A) : list A :=
  match l, i with
  | [], _ => []
  | _ :: tl, O => tl
  | a :: tl, S j => a :: drop_nth j tl
  end.

(** [left.merge(right, on=key, how="left")]: every left row, in order,
    joined with each right row of the same key, or padded with NaN when
    there is none; the result gets a fresh RangeIndex.  This is the merge of
    frames like the two of the script: they share no column label but the
    key (no [_x]/[_y] suffix arises), the keys are strings (none is missing)
    and every left key has its right row (no column changes its dtype). *)
Definition merge_left (l r : DataFrame) (key : string) : result DataFrame :=
  rbind (col_pos l key) (fun li =>
  rbind (col_pos r key) (fun ri =>
    let rcols := drop_nth ri (columns r) in
    let join (lrow : Z * list cell) : list (list cell) :=
      match filter (fun rrow => cell_eqb (cell_at ri rrow) (cell_at li lrow)) (rows r) with
      | [] => [snd lrow ++ map (fun _ => CFloat PrimFloat.nan) rcols]
      | ms => map (fun rrow => snd lrow ++ drop_nth ri (snd rrow)) ms
      end in
    Ok {| columns := columns l ++ rcols;
          rows := number_from 0 (flat_map join (rows l)) |})).

(** Element-wise [a / b]: true division, in float64 whatever the dtypes;
    a zero divisor yields an infinity or NaN, not an exception. *)
Fixpoint series_div (a b : Series) : result Series :=
  match a, b with
  | x :: a', y :: b' =>
      rbind (to_float x) (fun fx =>
      rbind (to_float y) (fun fy =>
      rbind (series_div a' b') (fun tl =>
      Ok (CFloat (PrimFloat.div fx fy) :: tl))))
  | [], [] => Ok []
  | _, _ => Raise ValueError
  end.

Definition series_div_int (a : Series) (d : Z) : result Series :=
  rmap (fun x => rbind (to_float x) (fun fx => Ok (CFloat (PrimFloat.div fx (F64.of_int d))))) a.

Definition series_mul_int (a : Series) (d : Z) : result Series :=
  rmap (fun x => rbind (to_float x) (fun fx => Ok (CFloat (PrimFloat.mul fx (F64.of_int d))))) a.

(** NumPy's [around(x, 1)] on a float64, which [Series.round(1)] calls:
    multiply by ten, [rint], divide by ten. *)
Definition around1 (x : float) : float :=
  PrimFloat.div (F64.rint (PrimFloat.mul x 10%float)) 10%float.

Definition series_round1 (a : Series) : Series :=
  map (fun c => match c with CFloat x => CFloat (around1 x) | _ => c end) a.

Fixpoint replace_nth {A} (i : nat) (v : A) (l : list A) : list A :=
  match l, i with
  | [], _ => []
  | _ :: tl, O => v :: tl
  | a :: tl, S j => a :: replace_nth j v tl
  end.

(** The frame that [df[name] = values] leaves in [df], for [values] with
    one cell per row of [df], in row order: the column is replaced when the
    label exists and appended otherwise.  The script assigns columns it has
    computed from [df] itself, which carry the index of [df]; a list of
    another length raises [ValueError]. *)
Definition setitem (df : DataFrame) (name : string) (values : Series) : result DataFrame :=
  if negb (List.length values =? List.length (rows df))%nat then Raise ValueError
  else
    Ok match position name (columns df) with
       | Some i =>
           {| columns := columns df;
              rows := map (fun rv => (fst (fst rv), replace_nth i (snd rv) (snd (fst rv))))
                          (combine (rows df) values) |}
       | None =>
           {| columns := columns df ++ [name];
              rows := map (fun rv => (fst (fst rv), snd (fst rv) ++ [snd rv]))
                          (combine (rows df) values) |}
       end.

(** Insertion of a row in front of a list sorted in descending order of
    column [i]: the row passes the rows of strictly greater key and stops at
    the first row whose key is not greater, so that it stays ahead of the rows
    of equal key that came after it. *)
Fixpoint insert_desc (i : nat) (r : Z * list cell) (l : list (Z * list cell)) :=
  match l with
  | [] => [r]
  | r' :: tl => if cell_ltb (cell_at i r) (cell_at i r') then r' :: insert_desc i r tl
                else r :: l
  end.

(** Descending sort; rows of equal key keep the order they come in, and
    missing values go last. *)
Definition sort_desc (i : nat) (l : list (Z * list cell)) : list (Z * list cell) :=
  fold_right (insert_desc i) [] l.

Definition is_str (c : cell) : bool :=
  match c with CStr _ => true | _ => false end.




(** A column can be ordered unless it holds both a string and a number:
    Python refuses to compare the two. *)
Definition sortable (cs : list cell) : bool :=
  negb (existsb is_str cs
        && existsb (fun c => negb (is_str c) && negb (is_na c)) cs).

(** The frame [df.sort_values(by, ascending=False)] returns. *)
Definition sorted_values (df : DataFrame) (by_ : string) : result DataFrame :=
  rbind (col_pos df by_) (fun i =>
    if sortable (map (cell_at i) (rows df))
    then Ok {| columns := columns df; rows := sort_desc i (rows df) |}
    else Raise TypeError).

(** [df[df[name] == v]] *)
Definition where_eq (df : DataFrame) (name : string) (v : cell) : result DataFrame :=
  rbind (col_pos df name) (fun i =>
    Ok {| columns := columns df;
          rows := filter (fun r => cell_eqb (cell_at i r) v) (rows df) |}).

(** [df.iloc[0]], as the dict from column label to cell of the first row. *)
Definition iloc0 (df : DataFrame) : result (list (string * cell)) :=
  match rows df with
  | [] => Raise IndexError
  | r :: _ => Ok (combine (columns df) (snd r))
  end.

(** [df.loc[df[name] == v, col].iloc[0]] *)
Definition loc_first (df : DataFrame) (name : string) (v : cell) (col : string) : result cell :=
  rbind (where_eq df name v) (fun s =>
  rbind (getitem s col) (fun c =>
    match c with
    | [] => Raise IndexError
    | x :: _ => Ok x
    end)).

Definition row_get (row : list (string * cell)) (name : string) : result cell :=
  match dict_get name row with
  | Some c => Ok c
  | None => Raise (KeyError name)
  end.

End Pandas.
Import Pandas.

(* ------------------------------------------------------------------ *)
(** ** The world a script run acts on

    Streamlit re-runs the whole script, top to bottom, for every render.
    What a run can reach is: the widget values of the session (the selected
    jurisdiction and the slider position), the frame objects it has created
    (a heap of frames addressed by reference, since [df_ca] and
    [qc_practice_main] are shared by several panels), and the page it
    writes. *)

Definition ref := nat.

Record session := { juris_sel : option string; solo_share_sel : option Z }.

Inductive element :=
| Static (call : string)                  (* title, headings, fixed prose *)
| Markdown (text : string)                (* text with interpolated data *)
| Metric (label value : string)
| BarChart (title x y : string) (points : list (cell * cell))
| Table (df : DataFrame).

Record world := { widgets : session; heap : list DataFrame; screen : list element }.

Definition M (A : Type) := world -> result A * world.

Definition ret {A} (a : A) : M A := fun w => (Ok a, w).

Definition bind {A B} (m : M A) (k : A -> M B) : M B :=
  fun w => match m w with
           | (Ok a, w') => k a w'
           | (Raise e, w') => (Raise e, w')
           end.

Declare Scope script_scope.
Delimit Scope script_scope with script.
Notation "x <- m ;; k" := (bind m (fun x => k))
  (at level 61, m at next level, right associativity) : script_scope.
Notation "m ;; k" := (bind m (fun _ => k))
  (at level 61, right associativity) : script_scope.
#[local] Open Scope script_scope.

Definition lift {A} (r : result A) : M A := fun w => (r, w).

(** A new frame object. *)
Definition alloc (df : DataFrame) : M ref :=
  fun w => (Ok (List.length (heap w)),
            {| widgets := widgets w; heap := heap w ++ [df]; screen := screen w |}).

Definition deref (r : ref) : M DataFrame :=
  fun w => match nth_error (heap w) r with
           | Some df => (Ok df, w)
           | None => (Raise ValueError, w)
           end.

(** In-place update of the frame object at [r]. *)
Definition store (r : ref) (df : DataFrame) : M unit :=
  fun w => (Ok tt,
            {| widgets := widgets w; heap := replace_nth r df (heap w); screen := screen w |}).

Definition emit (e : element) : M unit :=
  fun w => (Ok tt,
            {| widgets := widgets w; heap := heap w; screen := screen w ++ [e] |}).

(** *** Frame operations on references *)

Definition pd_DataFrame (ds : list (list (string * cell))) : M ref :=
  alloc (of_dicts ds).

Definition df_merge (l r : ref) (key : string) : M ref :=
  a <- deref l ;; b <- deref r ;; m <- lift (merge_left a b key) ;; alloc m.

Definition df_getitem (r : ref) (name : string) : M Series :=
  df <- deref r ;; lift (getitem df name).

(** [df[name] = values] mutates the frame it is applied to. *)
Definition df_setitem (r : ref) (name : string) (values : Series) : M unit :=
  df <- deref r ;; df' <- lift (setitem df name values) ;; store r df'.

(** [df.sort_values(by, ascending=False)], with the default
    [inplace=False]: the result is a new frame. *)
Definition df_sort_values (r : ref) (by_ : string) : M ref :=
  df <- deref r ;; s <- lift (sorted_values df by_) ;; alloc s.

Definition df_where_eq (r : ref) (name : string) (v : cell) : M ref :=
  df <- deref r ;; s <- lift (where_eq df name v) ;; alloc s.

Definition df_iloc0 (r : ref) : M (list (string * cell)) :=
  df <- deref r ;; lift (iloc0 df).

(** [df.loc[df[name] == v, col].iloc[0]] *)
Definition df_loc_first (r : ref) (name : string) (v : cell) (col : string) : M cell :=
  df <- deref r ;; lift (loc_first df name v col).

(** *** Streamlit and Plotly calls *)

Definition st_static (call : string) : M unit := emit (Static call).

Definition st_metric (label value : string) : M unit := emit (Metric label value).

Definition st_dataframe (r : ref) : M unit :=
  df <- deref r ;; emit (Table df).

(** [px.bar(df, x=, y=, title=)] followed by [st.plotly_chart]. *)
Definition px_bar_chart (r : ref) (x y title : string) : M unit :=
  xs <- df_getitem r x ;; ys <- df_getitem r y ;;
  emit (BarChart title x y (combine xs ys)).

(** [st.selectbox(label, options, index=i)]: the option selected in the
    session when it is one of [options], the option at [i] otherwise. *)
Definition st_selectbox (options : list string) (i : nat) : M string :=
  fun w =>
    match nth_error options i with
    | None => (Raise IndexError, w)
    | Some dflt =>
        match juris_sel (widgets w) with
        | Some v => (Ok (if existsb (String.eqb v) options then v else dflt), w)
        | None => (Ok dflt, w)
        end
    end.

(** [st.slider(label, min_value, max_value, value, step)]: the position held
    by the session when it lies between [min_value] and [max_value], and
    [value] otherwise, as before the user has moved the slider.  (The widget
    itself only sends multiples of [step].) *)
Definition st_slider (min_value max_value value step : Z) : M Z :=
  fun w => (Ok match solo_share_sel (widgets w) with
               | Some v => if (min_value <=? v)%Z && (v <=? max_value)%Z then v else value
               | None => value
               end, w).

(** [l.index(x)] *)
Fixpoint list_index (x : string) (l : list string) : result nat :=
  match l with
  | [] => Raise ValueError
  | y :: tl => if String.eqb y x then Ok O
               else rbind (list_index x tl) (fun i => Ok (S i))
  end.

(** [s.tolist()] of a column of strings. *)
Definition tolist_str (s : Series) : result (list string) :=
  rmap (fun c => match c with CStr t => Ok t | _ => Raise TypeError end) s.

(* ------------------------------------------------------------------ *)
(** ** The official figures (module-level constants of the script) *)

#[local] Open Scope string_scope.

Definition CAN_REGISTERED_VETS_2024 : Z := 16317.
Definition CAN_ACTIVE_VETS_2023_24 : Z := 15278.
Definition CAN_ACCREDITED_FACILITIES_2023_24 : Z := 4328.

Definition CAN_OUTPUT_MCAD : float := 16946.8.
Definition CAN_GDP_MCAD : float := 9549.3.
Definition CAN_EMPLOYMENT_FTE : Z := 81920.
Definition CAN_TAX_FED_MCAD : float := 873.1.
Definition CAN_TAX_PROV_MCAD : float := 797.3.
Definition CAN_TAX_MUNI_MCAD : float := 158.2.
Definition CAN_OUTPUT_DIRECT_MCAD : float := 10044.5.
Definition CAN_GDP_DIRECT_MCAD : float := 5567.6.
Definition CAN_EMPLOYMENT_DIRECT_FTE : Z := 51660.

(** A dict literal, in insertion order. *)
Definition vets_active_2023_24 : list (string * Z) :=
  [ ("Ontario (ON)", 5386);
    ("Québec (QC)", 3212);
    ("Alberta (AB)", 2099);
    ("Colombie-Britannique (BC)", 2141);
    ("Saskatchewan (SK)", 724);
    ("Nouvelle-Écosse (NS)", 495);
    ("Manitoba (MB)", 458);
    ("Nouveau-Brunswick (NB)", 167);
    ("Île-du-Prince-Édouard (PE)", 238);
    ("Terre-Neuve-et-Labrador (NL)", 158);
    ("Yukon (YK)", 34);
    ("Territoires du Nord-Ouest (NT)", 4) ].

Definition facilities_2023_24 : list (string * Z) :=
  [ ("Ontario (ON)", 1760);
    ("Québec (QC)", 942);
    ("Alberta (AB)", 608);
    ("Colombie-Britannique (BC)", 688);
    ("Saskatchewan (SK)", 135);
    ("Nouvelle-Écosse (NS)", 155);
    ("Manitoba (MB)", 152);
    ("Nouveau-Brunswick (NB)", 92);
    ("Île-du-Prince-Édouard (PE)", 25);
    ("Terre-Neuve-et-Labrador (NL)", 31);
    ("Yukon (YK)", 14);
    ("Territoires du Nord-Ouest (NT)", 4) ].

Definition col_juris := "Juridiction".
Definition col_vets := "Vétérinaires actifs (2023-24)".
Definition col_facs := "Établissements accrédités (2023-24)".
Definition col_ratio := "Ratio (vétos / établissement) — indicateur dérivé".

Definition QC_OMVQ_MEMBERS_TOTAL : Z := 2804.
Definition QC_OMVQ_ACTIVE_STATUS_N : Z := 2381.
Definition QC_OMVQ_FEMALE_N : Z := 2025.
Definition QC_OMVQ_MALE_N : Z := 779.

Definition col_practice := "Pratique principale".
Definition col_effectif := "Effectif".
Definition col_part := "Part (%)".

Definition qc_practice_records : list (string * Z) :=
  [ ("Animaux de compagnie", 1674);
    ("Grands animaux", 305);
    ("Santé publique", 172);
    ("Services-conseils", 149);
    ("Équins", 94);
    ("Enseignement", 95);
    ("Administration", 76);
    ("Petits ruminants", 0);
    ("Grandes populations animales", 42);
    ("Faune et zoos", 15);
    ("Animaux de bassecour", 1) ].

Definition QC_COMPANION_MONTÉRÉGIE_N : Z := 405.
Definition QC_COMPANION_MONTRÉAL_N : Z := 352.
Definition QC_COMPANION_ABITIBI_N : Z := 20.
Definition QC_COMPANION_GASPÉSIE_N : Z := 10.
Definition QC_COMPANION_CÔTE_NORD_N : Z := 9.
Definition QC_COMPANION_NORD_DU_QC_N : Z := 2.

(* ------------------------------------------------------------------ *)
(** ** Module-level construction of the two shared frames *)

(** [[{k1: key, k2: value} for key, value in d.items()]] *)
Definition records (k1 k2 : string) (d : list (string * Z)) : list (list (string * cell)) :=
  map (fun kv => [(k1, CStr (fst kv)); (k2, CInt (snd kv))]) d.

Definition build_df_ca : M ref :=
  l <- pd_DataFrame (records col_juris col_vets vets_active_2023_24) ;;
  r <- pd_DataFrame (records col_juris col_facs facilities_2023_24) ;;
  df_ca <- df_merge l r col_juris ;;
  a <- df_getitem df_ca col_vets ;;
  b <- df_getitem df_ca col_facs ;;
  q <- lift (series_div a b) ;;
  df_setitem df_ca col_ratio q ;;
  ret df_ca.

Definition build_qc_practice_main : M ref :=
  qc <- pd_DataFrame (records col_practice col_effectif qc_practice_records) ;;
  e <- df_getitem qc col_effectif ;;
  d <- lift (series_div_int e QC_OMVQ_MEMBERS_TOTAL) ;;
  p <- lift (series_mul_int d 100) ;;
  df_setitem qc col_part (series_round1 p) ;;
  ret qc.

(* ------------------------------------------------------------------ *)
(** ** The scenario estimator (the arithmetic of the scenario tab) *)

Record scenario := {
  solo_facilities : float;
  multi_facilities : float;
  solo_vets_est : float;
  multi_vets_est : float
}.

Definition estimate (vets facs : float) (solo_share : Z) : scenario :=
  let solo_facilities := (facs * (F64.of_int solo_share / 100.0))%float in
  let multi_facilities := (facs - solo_facilities)%float in
  let solo_vets_est := (solo_facilities * 1.0)%float in
  let multi_vets_est := F64.max0 (vets - solo_vets_est)%float in
  {| solo_facilities := solo_facilities;
     multi_facilities := multi_facilities;
     solo_vets_est := solo_vets_est;
     multi_vets_est := multi_vets_est |}.

(* ------------------------------------------------------------------ *)
(** ** The four tabs

    Fixed text (title, headings, paragraphs, captions) is written to the page
    as a [Static] element naming the call; its content depends on nothing. *)

(** [f"{n:,}".replace(",", " ")] *)
Definition fmt_int (n : Z) : string :=
  Fmt.replace ","%char " "%char (Fmt.int_grouped n).

(** [f"{x:,.1f}".replace(",", " ")] *)
Definition fmt_amount (x : float) : string :=
  Fmt.replace ","%char " "%char (Fmt.fixed true 1 x).

Definition tab_ca (df_ca : ref) : M unit :=
  st_static "st.subheader" ;;
  st_metric "Vétérinaires enregistrés (2024)" (fmt_int CAN_REGISTERED_VETS_2024) ;;
  st_metric "Vétérinaires actifs (2023-24)" (fmt_int CAN_ACTIVE_VETS_2023_24) ;;
  st_metric "Établissements accrédités (2023-24)" (fmt_int CAN_ACCREDITED_FACILITIES_2023_24) ;;
  st_metric "Ratio (vétos / établissement) — indicateur dérivé"
    (Fmt.fixed false 2 (F64.of_int CAN_ACTIVE_VETS_2023_24
                        / F64.of_int CAN_ACCREDITED_FACILITIES_2023_24)%float) ;;
  st_static "st.markdown" ;;
  st_metric "Production totale (M$ CAD)" (fmt_amount CAN_OUTPUT_MCAD) ;;
  st_metric "PIB total (M$ CAD)" (fmt_amount CAN_GDP_MCAD) ;;
  st_metric "Emplois (ETP/FTE)" (fmt_int CAN_EMPLOYMENT_FTE) ;;
  st_metric "Recettes fiscales totales (M$ CAD)"
    (fmt_amount (CAN_TAX_FED_MCAD + CAN_TAX_PROV_MCAD + CAN_TAX_MUNI_MCAD)%float) ;;
  st_static "st.caption" ;;
  st_static "st.markdown" ;;
  s1 <- df_sort_values df_ca col_vets ;;
  px_bar_chart s1 col_juris col_vets "Vétérinaires actifs par juridiction (2023-24)" ;;
  s2 <- df_sort_values df_ca col_facs ;;
  px_bar_chart s2 col_juris col_facs "Établissements accrédités par juridiction (2023-24)" ;;
  st_static "st.markdown" ;;
  s3 <- df_sort_values df_ca col_ratio ;;
  px_bar_chart s3 col_juris col_ratio
    "Ratio vétérinaires actifs / établissements accrédités (proxy de concentration)" ;;
  s4 <- df_sort_values df_ca col_vets ;;
  st_dataframe s4.

Definition nl : string := String (ascii_of_nat 10) EmptyString.

(** One line of the highlights: the share is a literal of the script, the
    headcount is read from the frame. *)
Definition highlight (qc : ref) (practice share : string) : M string :=
  c <- df_loc_first qc col_practice (CStr practice) col_effectif ;;
  match c with
  | CInt n => ret ("- " ++ practice ++ " : **" ++ share ++ "** (**n="
                     ++ Fmt.int_plain n ++ "**)" ++ nl)
  | _ => lift (Raise TypeError)
  end.

(** The regional findings: an f-string over module constants. *)
Definition regional_text : string :=
  nl ++ "Selon le document OMVQ, la concentration la plus élevée de médecins vétérinaires dont la pratique principale est" ++ nl
  ++ "**animaux de compagnie** se situe en :" ++ nl
  ++ "- **Montérégie : 24% (n=" ++ Fmt.int_plain QC_COMPANION_MONTÉRÉGIE_N ++ ")**" ++ nl
  ++ "- **Montréal : 21% (n=" ++ Fmt.int_plain QC_COMPANION_MONTRÉAL_N ++ ")**" ++ nl
  ++ nl
  ++ "Certaines régions éloignées sont signalées comme plus touchées par un manque de médecins vétérinaires" ++ nl
  ++ "dans ce domaine, notamment :" ++ nl
  ++ "- Abitibi-Témiscamingue : 1% (n=" ++ Fmt.int_plain QC_COMPANION_ABITIBI_N ++ ")" ++ nl
  ++ "- Gaspésie–Îles-de-la-Madeleine : 1% (n=" ++ Fmt.int_plain QC_COMPANION_GASPÉSIE_N ++ ")" ++ nl
  ++ "- Côte-Nord : 1% (n=" ++ Fmt.int_plain QC_COMPANION_CÔTE_NORD_N ++ ")" ++ nl
  ++ "- Nord-du-Québec : <1% (n=" ++ Fmt.int_plain QC_COMPANION_NORD_DU_QC_N ++ ")" ++ nl.

Definition tab_qc (qc : ref) : M unit :=
  st_static "st.subheader" ;;
  st_metric "Médecins vétérinaires membres (total)" (fmt_int QC_OMVQ_MEMBERS_TOTAL) ;;
  st_metric "Statut actif (n)" (fmt_int QC_OMVQ_ACTIVE_STATUS_N) ;;
  st_metric "Femmes (n)" (fmt_int QC_OMVQ_FEMALE_N) ;;
  st_metric "Hommes (n)" (fmt_int QC_OMVQ_MALE_N) ;;
  st_static "st.markdown" ;;
  s1 <- df_sort_values qc col_effectif ;;
  px_bar_chart s1 col_practice col_effectif
    "Répartition des pratiques principales (effectifs)" ;;
  st_static "st.markdown" ;;
  h1 <- highlight qc "Animaux de compagnie" "60%" ;;
  h2 <- highlight qc "Grands animaux" "11%" ;;
  h3 <- highlight qc "Santé publique" "6%" ;;
  emit (Markdown (nl ++ h1 ++ h2 ++ h3)) ;;
  s2 <- df_sort_values qc col_effectif ;;
  st_dataframe s2 ;;
  st_static "st.markdown" ;;
  emit (Markdown regional_text) ;;
  st_static "st.info".

Definition tab_scen (df_ca : ref) : M unit :=
  st_static "st.subheader" ;;
  st_static "st.markdown" ;;
  js <- df_getitem df_ca col_juris ;;
  options <- lift (tolist_str js) ;;
  i <- lift (list_index "Québec (QC)" options) ;;
  juris <- st_selectbox options i ;;
  sel <- df_where_eq df_ca col_juris (CStr juris) ;;
  row <- df_iloc0 sel ;;
  vets <- lift (rbind (row_get row col_vets) to_float) ;;
  facs <- lift (rbind (row_get row col_facs) to_float) ;;
  ratio <- lift (rbind (row_get row col_ratio) to_float) ;;
  iv <- lift (int_of_float vets) ;;
  st_metric "Vétérinaires actifs (officiel)" (fmt_int iv) ;;
  jf <- lift (int_of_float facs) ;;
  st_metric "Établissements accrédités (officiel)" (fmt_int jf) ;;
  st_metric "Ratio (indicateur dérivé)" (Fmt.fixed false 2 ratio) ;;
  st_static "st.markdown" ;;
  solo_share <- st_slider 0 80 20 5 ;;
  let e := estimate vets facs solo_share in
  st_metric "Établissements 'solo' (estim.)" (Fmt.fixed false 0 (solo_facilities e)) ;;
  st_metric "Vétérinaires 'solo' (estim.)" (Fmt.fixed false 0 (solo_vets_est e)) ;;
  st_metric "Vétérinaires en structure multi (estim.)" (Fmt.fixed false 0 (multi_vets_est e)) ;;
  st_static "st.caption".

Definition tab_sources : M unit :=
  st_static "st.subheader" ;;
  st_static "st.markdown" ;;
  st_static "st.markdown" ;;
  st_static "st.markdown" ;;
  st_static "st.markdown".

(** Module level: the title, the introduction, the two shared frames and
    the tab bar. *)
Definition setup : M (ref * ref) :=
  st_static "st.title" ;;
  st_static "st.markdown" ;;
  df_ca <- build_df_ca ;;
  qc_practice_main <- build_qc_practice_main ;;
  st_static "st.tabs" ;;
  ret (df_ca, qc_practice_main).

(** The bodies of the four tabs: each runs at every render, whichever tab
    is shown. *)
Definition tabs (frames : ref * ref) : M unit :=
  tab_ca (fst frames) ;;
  tab_qc (snd frames) ;;
  tab_scen (fst frames) ;;
  tab_sources.

(** The whole script: one render. *)
Definition script : M unit :=
  frames <- setup ;; tabs frames.

(** A render starts from the session's widget values, with no frame object
    and an empty page. *)
Definition fresh (s : session) : world := {| widgets := s; heap := []; screen := [] |}.

Definition render (s : session) : result unit * world := script (fresh s).

(** The world the tabs start from. *)
Definition after_setup (s : session) : world := snd (setup (fresh s)).

(* ------------------------------------------------------------------ *)
(** ** The inputs a render can receive, and the frames it builds *)

(** The options of the jurisdiction selector, [df_ca["Juridiction"].tolist()]. *)
Definition jurisdictions : list string := map fst vets_active_2023_24.

(** The positions of the slider: [min_value=0], [max_value=80], [step=5]. *)
Definition slider_values : list Z := map (fun k => 5 * Z.of_nat k) (seq 0 17).

Definition no_session : session := {| juris_sel := None; solo_share_sel := None |}.

Definition chosen (j : string) (v : Z) : session :=
  {| juris_sel := Some j; solo_share_sel := Some v |}.

(** The frame a construction leaves behind its reference. *)
Definition built (m : M ref) : result DataFrame :=
  fst ((r <- m ;; deref r) (fresh no_session)).

Definition df_ca : result DataFrame := built build_df_ca.
Definition qc_practice_main : result DataFrame := built build_qc_practice_main.

(** [d[k]] on a dict literal. *)
Fixpoint dict_getitem (d : list (string * Z)) (k : string) : result Z :=
  match d with
  | [] => Raise (KeyError k)
  | (k', v) :: tl => if String.eqb k' k then Ok v else dict_getitem tl k
  end.

(** The cell of column [col] in the row of [df] whose [key] column is [k]. *)
Definition lookup (df : result DataFrame) (key k col : string) : result cell :=
  rbind df (fun d => loc_first d key (CStr k) col).

Definition floats_of (s : Series) : list float :=
  flat_map (fun c => match c with CFloat x => [x] | _ => [] end) s.

(** The computed share column, [qc_practice_main["Part (%)"]]. *)
Definition shares : list float :=
  match rbind qc_practice_main (fun d => getitem d col_part) with
  | Ok s => floats_of s
  | Raise _ => []
  end.

(** The shares added up exactly, as rationals. *)
Definition Qsum (l : list float) : Q :=
  fold_right (fun x acc => match F64.to_Q x with
                           | Some q => (q + acc)%Q
                           | None => acc
                           end) 0%Q l.

(** The three scenario metrics of a rendered page: its last three metrics. *)
Definition metrics_of (page : list element) : list (string * string) :=
  flat_map (fun e => match e with Metric l v => [(l, v)] | _ => [] end) page.

Definition scenario_metrics (page : list element) : list (string * string) :=
  let ms := metrics_of page in skipn (List.length ms - 3) ms.

(* ------------------------------------------------------------------ *)
(** ** Python's built-in [round(x, 1)]

    The spec states the share as [round(headcount / total * 100, 1)].
    CPython rounds the exact value of [x] half-even to one decimal, [n / 10]
    for an integer [n], and returns the float nearest to that decimal; this
    is the definition the NumPy computation of the script is compared
    with. *)

Definition py_round1 (x : float) : float :=
  match F64.exact x with
  | Some (_, e) =>
      if (0 <=? e)%Z then x
      else
        match F64.round_scaled 1 x with
        | Some n =>
            if (n =? 0)%Z then (if PrimFloat.get_sign x then PrimFloat.neg_zero else PrimFloat.zero)
            else F64.of_ratio n 10
        | None => x
        end
  | None => x
  end.


(** The figures the scenario tab reads for a jurisdiction: the active
    veterinarians and the accredited facilities of its row of [df_ca], as
    floats. *)
Definition official (j : string) : result (float * float) :=
  rbind (lookup df_ca col_juris j col_vets) (fun a =>
  rbind (to_float a) (fun v =>
  rbind (lookup df_ca col_juris j col_facs) (fun b =>
  rbind (to_float b) (fun f => Ok (v, f))))).

(** The spec's formula for the solo facilities,
    [facilities * solo_share_pct / 100], evaluated as Python evaluates it
    (the product first), over every input of the estimator's contract. *)
Definition solo_as_claimed : Prop :=
  forall (vets facs : float) (solo_share : Z),
    PrimFloat.leb 0 vets = true ->
    PrimFloat.leb 0 facs = true ->
    (0 <= solo_share <= 100)%Z ->
    solo_facilities (estimate vets facs solo_share)
    = (facs * F64.of_int solo_share / 100)%float.

(** The spec's monotonicity sentence, read over every input of the
    estimator's contract. *)
Definition multi_strictly_decreasing : Prop :=
  forall (vets facs : float) (p1 p2 : Z),
    PrimFloat.leb 0 vets = true ->
    PrimFloat.leb 0 facs = true ->
    (0 <= p1)%Z -> (p1 < p2)%Z -> (p2 <= 100)%Z ->
    PrimFloat.ltb 0 (multi_vets_est (estimate vets facs p1)) = true ->
    PrimFloat.ltb (multi_vets_est (estimate vets facs p2))
                  (multi_vets_est (estimate vets facs p1)) = true.

(** A check run over the rows the scenario tab can select. *)
Definition table_check (P : float -> float -> bool) : bool :=
  forallb (fun j => match official j with
                    | Ok (v, f) => P v f
                    | Raise _ => false
                    end) jurisdictions.

Definition slider_check (P : Z -> bool) : bool := forallb P slider_values.

(** The shares between 0 and 100 that are whole numbers. *)
Definition whole_shares : list Z := map Z.of_nat (seq 0 101).

(** The float of a whole share [p], checked: zero at 0 %, otherwise a
    positive float with a mantissa of 53 bits and an exponent from -59 to -52
    whose value times 100 is within 2^-46 of [p] (values scaled by 2^200). *)
Definition share_ok (p : Z) : bool :=
  match Prim2SF (F64.of_int p / 100) with
  | S754_finite false M E =>
      ((1 <=? p) && (Zpos (digits2_pos M) =? 53) && (-59 <=? E) && (E <=? -52)
       && (Z.abs (100 * (Zpos M * 2 ^ (E + 200)) - p * 2 ^ 200) <=? 2 ^ 154))%Z
  | S754_zero false => (p =? 0)%Z
  | _ => false
  end.

(** [w'] extends [w]: the same widget values, the same frame behind every
    reference of [w] (new frames may follow), the same page with new elements
    after it. *)
Definition extends (w w' : world) : Prop :=
  widgets w' = widgets w
  /\ (exists h, heap w' = (heap w ++ h)%list)
  /\ (exists l, screen w' = (screen w ++ l)%list).

(** A computation that only reads and appends. *)
Definition pure_step {A} (m : M A) : Prop := forall w, extends w (snd (m w)).

(** The shares add up to [target] within half a point. *)
Definition shares_sum_near (target : Q) : Prop :=
  (Qabs (Qsum shares - target) <= 1 # 2)%Q.

(** The element the Canada tab shows for the total tax revenue. *)
Definition tax_metric : element :=
  Metric "Recettes fiscales totales (M$ CAD)" "1 828.6".

(** Equality of two lists of metrics, decided. *)
Fixpoint metrics_eqb (a b : list (string * string)) : bool :=
  match a, b with
  | [], [] => true
  | (l, v) :: a', (l', v') :: b' =>
      String.eqb l l' && String.eqb v v' && metrics_eqb a' b'
  | _, _ => false
  end.

(** The option the jurisdiction selector returns for a session: the stored
    one when it is an option, Québec (the [index=] argument) otherwise. *)
Definition picked (s : session) : string :=
  match juris_sel s with
  | Some v => if existsb (String.eqb v) jurisdictions then v else "Québec (QC)"
  | None => "Québec (QC)"
  end.

(** Charts and tables, as opposed to text and metrics. *)
Definition is_chart_or_table (e : element) : bool :=
  match e with
  | BarChart _ _ _ _ | Table _ => true
  | _ => false
  end.

(** The scenario tab in two parts: up to the arguments of the selector, and
    from the selected jurisdiction on. *)
Definition scen_options (df_ca : ref) : M (list string * nat) :=
  st_static "st.subheader" ;;
  st_static "st.markdown" ;;
  js <- df_getitem df_ca col_juris ;;
  options <- lift (tolist_str js) ;;
  i <- lift (list_index "Québec (QC)" options) ;;
  ret (options, i).

Definition scen_body (df_ca : ref) (juris : string) : M unit :=
  sel <- df_where_eq df_ca col_juris (CStr juris) ;;
  row <- df_iloc0 sel ;;
  vets <- lift (rbind (row_get row col_vets) to_float) ;;
  facs <- lift (rbind (row_get row col_facs) to_float) ;;
  ratio <- lift (rbind (row_get row col_ratio) to_float) ;;
  iv <- lift (int_of_float vets) ;;
  st_metric "Vétérinaires actifs (officiel)" (fmt_int iv) ;;
  jf <- lift (int_of_float facs) ;;
  st_metric "Établissements accrédités (officiel)" (fmt_int jf) ;;
  st_metric "Ratio (indicateur dérivé)" (Fmt.fixed false 2 ratio) ;;
  st_static "st.markdown" ;;
  solo_share <- st_slider 0 80 20 5 ;;
  let e := estimate vets facs solo_share in
  st_metric "Établissements 'solo' (estim.)" (Fmt.fixed false 0 (solo_facilities e)) ;;
  st_metric "Vétérinaires 'solo' (estim.)" (Fmt.fixed false 0 (solo_vets_est e)) ;;
  st_metric "Vétérinaires en structure multi (estim.)" (Fmt.fixed false 0 (multi_vets_est e)) ;;
  st_static "st.caption".

(** The worlds a render goes through before the scenario tab and before its
    selector. *)
Definition before_scen (s : session) : world :=
  snd ((tab_ca 2%nat ;; tab_qc 3%nat) (after_setup s)).

Definition at_selector (s : session) : world :=
  snd (scen_options 2%nat (before_scen s)).

(** A run of the script in a world that earlier runs have left, compared
    with the run of a first render: the world [w] holds the frames [h] and
    the page [pg] of the earlier runs in front of what the world [w0] of the
    first render holds, and a reference of [w] is the reference of [w0]
    moved past [h]. *)
Definition shifted (h : list DataFrame) (pg : list element) (w0 w : world) : Prop :=
  widgets w = widgets w0
  /\ heap w = (h ++ heap w0)%list
  /\ screen w = (pg ++ screen w0)%list.

Definition shift (h : list DataFrame) (r0 r : ref) : Prop :=
  r = (List.length h + r0)%nat.

(** Two computations that go the same way in two such worlds: they return
    related values, or raise the same exception, and leave two such worlds. *)
Definition sim (h : list DataFrame) (pg : list element) {A}
    (R : A -> A -> Prop) (m0 m : M A) : Prop :=
  forall w0 w, shifted h pg w0 w ->
    match m0 w0, m w with
    | (Ok a0, w0'), (Ok a, w') => R a0 a /\ shifted h pg w0' w'
    | (Raise e0, w0'), (Raise e, w') => e0 = e /\ shifted h pg w0' w'
    | _, _ => False
    end.


(** [s.replace(c, "")] for a one-character [c]. *)
Fixpoint strip (c : ascii) (s : string) : string :=
  match s with
  | EmptyString => EmptyString
  | String a tl => if Ascii.eqb a c then strip c tl else String a (strip c tl)
  end.

(** [int(s)] for a string of decimal digits. *)
Definition parse_nat (s : string) : option Z :=
  option_map (fun d => Z.of_N (N.of_uint d)) (NilZero.uint_of_string s).

(* ================================================================== *)
(** * Properties *)

#[local] Open Scope Z_scope.

(** ** Binary64 facts *)

Lemma digits2_pos_shift52 (m : positive) :
  Zpos (digits2_pos (m * 4503599627370496)) = Zpos (digits2_pos m) + 52.
Proof.
  rewrite Pos.mul_comm. cbn [Pos.mul digits2_pos]. lia.
Qed.

(** Multiplying a binary64 value by one returns it: the product of the
    mantissas is shifted back by the 52 bits of the mantissa of one, and
    nothing is rounded off. *)
Lemma SFmul_one_r (x : spec_float) :
  valid_binary x = true ->
  SF64mul x (S754_finite false 4503599627370496 (-52)) = x.
Proof.
  destruct x as [s | s | | s m e]; cbn [SF64mul SFmul valid_binary];
    try (intros _; now rewrite ?xorb_false_r).
  unfold bounded, canonical_mantissa. rewrite andb_true_iff, Z.eqb_eq, Z.leb_le.
  intros [Hc Hb].
  rewrite xorb_false_r.
  unfold binary_round_aux, shr_fexp.
  cbn [Zdigits2]. rewrite digits2_pos_shift52.
  replace (fexp prec emax (Z.pos (digits2_pos m) + 52 + (e + -52)) - (e + -52)) with 52
    by (replace (Z.pos (digits2_pos m) + 52 + (e + -52))
          with (Z.pos (digits2_pos m) + e) by lia; lia).
  rewrite Pos.mul_comm.
  cbn [Pos.mul shr shr_record_of_loc iter_pos shr_1 orb].
  cbn [shr_m loc_of_shr_record round_nearest_even Zdigits2].
  replace (e + -52 + 52) with e by lia.
  rewrite Hc, Z.sub_diag. cbn [shr shr_m shr_record_of_loc].
  apply Z.leb_le in Hb. now rewrite Hb.
Qed.

Lemma mul_one_r (x : float) : (x * 1)%float = x.
Proof.
  apply Prim2SF_inj. rewrite FloatAxioms.mul_spec.
  change (Prim2SF 1%float) with (S754_finite false 4503599627370496 (-52)).
  apply SFmul_one_r, Prim2SF_valid.
Qed.

Lemma sub_zero_r (x : float) : (x - 0)%float = x.
Proof.
  apply Prim2SF_inj. rewrite FloatAxioms.sub_spec.
  change (Prim2SF 0%float) with (S754_zero false).
  now destruct (Prim2SF x) as [[|] | | | ].
Qed.

(** [max0] is the maximum with zero: the identity from zero upwards, zero
    below. *)
Lemma max0_spec (x : float) :
  (PrimFloat.leb 0 x = true -> F64.max0 x = x)
  /\ (PrimFloat.ltb x 0 = true -> F64.max0 x = 0%float).
Proof.
  unfold F64.max0, PrimFloat.zero. split.
  - rewrite FloatAxioms.leb_spec. intros H.
    rewrite FloatAxioms.ltb_spec.
    change (Prim2SF 0%float) with (S754_zero false) in *.
    destruct (Prim2SF x) as [[|] | [|] | | [|] m e]; try discriminate; reflexivity.
  - intros ->. reflexivity.
Qed.

(** *** Integers as floats *)

Lemma digits2_pos_iter (m k : positive) :
  Zpos (digits2_pos (Pos.iter xO m k)) = Zpos (digits2_pos m) + Zpos k.
Proof.
  induction k as [ | k IH] using Pos.peano_ind.
  - cbn. lia.
  - rewrite Pos.iter_succ. cbn [digits2_pos]. lia.
Qed.

Lemma Zpos_iter (m k : positive) :
  Zpos (Pos.iter xO m k) = Zpos m * 2 ^ Zpos k.
Proof.
  induction k as [ | k IH] using Pos.peano_ind.
  - cbn. lia.
  - rewrite Pos.iter_succ, Pos2Z.inj_xO, IH, Pos2Z.inj_succ, Z.pow_succ_r by lia. ring.
Qed.

Lemma digits2_pos_lower (m : positive) :
  2 ^ (Zpos (digits2_pos m) - 1) <= Zpos m.
Proof.
  induction m as [m IH | m IH | ]; cbn [digits2_pos]; [ | | cbn; lia];
    rewrite Pos2Z.inj_succ;
    replace (Z.succ (Z.pos (digits2_pos m)) - 1) with (Z.succ (Z.pos (digits2_pos m) - 1)) by lia;
    rewrite Z.pow_succ_r by lia; lia.
Qed.

Lemma shr_fexp_fits (mz : positive) (ez : Z) :
  Zpos (digits2_pos mz) = 53 -> -52 <= ez <= 0 ->
  shr_fexp prec emax (Zpos mz) ez loc_Exact
  = ({| shr_m := Zpos mz; shr_r := false; shr_s := false |}, ez).
Proof.
  intros Hd He. unfold shr_fexp, Zdigits2. rewrite Hd.
  replace (fexp prec emax (53 + ez) - ez) with 0; [reflexivity | ].
  unfold fexp, SpecFloat.emin, prec, emax. lia.
Qed.

(** A natural number below 2^53 is a binary64 value: rounding it changes
    nothing, and leaves a mantissa of 53 bits. *)
Lemma binary_round_exact (s : bool) (m : positive) :
  Zpos m < 2 ^ 53 ->
  exists mz ez,
    binary_round prec emax s m 0 = S754_finite s mz ez
    /\ ez <= 0 /\ Zpos mz = Zpos m * 2 ^ (- ez)
    /\ valid_binary (S754_finite s mz ez) = true
    /\ Zpos (digits2_pos mz) = 53 /\ -52 <= ez.
Proof.
  intros Hm. pose proof (digits2_pos_lower m) as Hl.
  assert (Hd : Zpos (digits2_pos m) <= 53).
  { destruct (Z.le_gt_cases (Zpos (digits2_pos m)) 53) as [H | H]; [exact H | ].
    assert (2 ^ 53 <= 2 ^ (Zpos (digits2_pos m) - 1)) by (apply Z.pow_le_mono_r; lia).
    lia. }
  unfold binary_round, shl_align.
  replace (fexp prec emax (Z.pos (digits2_pos m) + 0)) with (Zpos (digits2_pos m) - 53)
    by (unfold fexp, SpecFloat.emin, prec, emax; lia).
  destruct (Zpos (digits2_pos m) - 53 - 0) as [ | k | k] eqn:Ek; try lia.
  - exists m, 0. unfold binary_round_aux.
    rewrite shr_fexp_fits by lia. cbn [shr_m shr_r shr_s loc_of_shr_record round_nearest_even].
    rewrite shr_fexp_fits by lia. cbn [shr_m].
    split; [reflexivity | split; [lia | split; [cbn; lia | split; [ | lia]]]].
    cbn [valid_binary]. unfold bounded, canonical_mantissa.
    replace (Zpos (digits2_pos m)) with 53 by lia. reflexivity.
  - exists (Pos.iter xO m k), (Zpos (digits2_pos m) - 53).
    assert (Hk : Zpos (digits2_pos (Pos.iter xO m k)) = 53) by (rewrite digits2_pos_iter; lia).
    unfold binary_round_aux.
    rewrite shr_fexp_fits by lia. cbn [shr_m shr_r shr_s loc_of_shr_record round_nearest_even].
    rewrite shr_fexp_fits by lia. cbn [shr_m].
    replace (Z.pos (digits2_pos m) - 53 <=? emax - prec) with true
      by (symmetry; apply Z.leb_le; unfold emax, prec; lia).
    split; [reflexivity | split; [lia | split; [ | split; [ | lia]]]].
    + rewrite Zpos_iter. f_equal. f_equal. lia.
    + cbn [valid_binary]. unfold bounded, canonical_mantissa. rewrite Hk.
      apply andb_true_iff. split.
      * apply Z.eqb_eq. unfold fexp, SpecFloat.emin, prec, emax. lia.
      * apply Z.leb_le. unfold emax, prec. lia.
Qed.

(** The float of an integer of magnitude below 2^53 is that integer. *)
Lemma Prim2SF_of_int (n : Z) :
  - 2 ^ 53 < n < 2 ^ 53 ->
  Prim2SF (F64.of_int n) = binary_normalize prec emax n 0 false.
Proof.
  intros Hn. unfold F64.of_int. apply Prim2SF_SF2Prim.
  destruct n as [ | m | m]; cbn [binary_normalize]; [reflexivity | | ].
  - destruct (binary_round_exact false m) as (mz & ez & -> & _ & _ & Hv & _); [lia | exact Hv].
  - destruct (binary_round_exact true m) as (mz & ez & -> & _ & _ & Hv & _); [lia | exact Hv].
Qed.

(** *** Rounding to 53 bits *)

Lemma digits2_pos_upper (m : positive) : Zpos m < 2 ^ Zpos (digits2_pos m).
Proof.
  induction m as [m IH | m IH | ]; cbn [digits2_pos]; [ | | cbn; lia];
    rewrite Pos2Z.inj_succ, Z.pow_succ_r by lia; lia.
Qed.

Lemma digits2_pos_unique (m : positive) (k : Z) :
  2 ^ (k - 1) <= Zpos m < 2 ^ k -> Zpos (digits2_pos m) = k.
Proof.
  intros [Hl Hu].
  pose proof (digits2_pos_lower m) as Hl'. pose proof (digits2_pos_upper m) as Hu'.
  destruct (Z.lt_trichotomy (Zpos (digits2_pos m)) k) as [H | [H | H]]; [ | exact H | ].
  - assert (2 ^ Zpos (digits2_pos m) <= 2 ^ (k - 1)) by (apply Z.pow_le_mono_r; lia). lia.
  - assert (2 ^ k <= 2 ^ (Zpos (digits2_pos m) - 1)) by (apply Z.pow_le_mono_r; lia). lia.
Qed.

Lemma shr_1_m (mrs : shr_record) :
  0 <= shr_m mrs -> shr_m (shr_1 mrs) = shr_m mrs / 2.
Proof.
  destruct mrs as [m r s]. cbn [shr_m]. intros Hm.
  rewrite <- Z.div2_div.
  destruct m as [ | [p | p | ] | p]; cbn; trivial; lia.
Qed.

Lemma pow2_xO (k : positive) : 2 ^ Zpos k~0 = 2 ^ Zpos k * 2 ^ Zpos k.
Proof. rewrite <- Z.pow_add_r by lia. f_equal. lia. Qed.

Lemma pow2_xI (k : positive) : 2 ^ Zpos k~1 = 2 * (2 ^ Zpos k * 2 ^ Zpos k).
Proof.
  rewrite <- Z.pow_add_r, <- Z.pow_succ_r by lia. f_equal. lia.
Qed.

Lemma shr_m_iter (k : positive) (mrs : shr_record) :
  0 <= shr_m mrs ->
  shr_m (iter_pos shr_1 k mrs) = shr_m mrs / 2 ^ Zpos k.
Proof.
  revert mrs. induction k as [k IH | k IH | ]; intros mrs Hm; cbn [iter_pos].
  - assert (Hp : 0 < 2 ^ Zpos k) by (apply Z.pow_pos_nonneg; lia).
    assert (H1 : 0 <= shr_m (shr_1 mrs)) by (rewrite shr_1_m by exact Hm; apply Z.div_pos; lia).
    assert (H2 : 0 <= shr_m (iter_pos shr_1 k (shr_1 mrs)))
      by (rewrite IH by exact H1; apply Z.div_pos; [exact H1 | exact Hp]).
    rewrite IH by exact H2. rewrite IH by exact H1. rewrite shr_1_m by exact Hm.
    rewrite !Z.div_div by lia. now rewrite pow2_xI.
  - assert (Hp : 0 < 2 ^ Zpos k) by (apply Z.pow_pos_nonneg; lia).
    assert (H2 : 0 <= shr_m (iter_pos shr_1 k mrs))
      by (rewrite IH by exact Hm; apply Z.div_pos; [exact Hm | exact Hp]).
    rewrite IH by exact H2. rewrite IH by exact Hm.
    rewrite !Z.div_div by lia. now rewrite pow2_xO.
  - rewrite shr_1_m by exact Hm. reflexivity.
Qed.

Lemma round_nearest_even_near (q : Z) (l : location) :
  round_nearest_even q l = q \/ round_nearest_even q l = q + 1.
Proof.
  destruct l as [ | [ | | ]]; cbn; auto. destruct (Z.even q); auto.
Qed.

(** A mantissa of 53 bits is not shifted. *)
Lemma shr_fexp_canonical (m : positive) (e : Z) :
  Zpos (digits2_pos m) = 53 -> -1074 <= e ->
  shr_fexp prec emax (Zpos m) e loc_Exact
  = ({| shr_m := Zpos m; shr_r := false; shr_s := false |}, e).
Proof.
  intros Hd He. unfold shr_fexp, Zdigits2. rewrite Hd.
  replace (fexp prec emax (53 + e) - e) with 0; [reflexivity | ].
  unfold fexp, SpecFloat.emin, prec, emax. lia.
Qed.

(** Rounding a mantissa of at least 53 bits, in the range of the normal
    numbers: the result has 53 bits and lies within one unit of its last
    place of the value rounded, and is that value when nothing is cut off. *)
Lemma binary_round_aux_normal (s : bool) (m : positive) (e : Z) :
  53 <= Zpos (digits2_pos m) ->
  -1074 <= e ->
  Zpos (digits2_pos m) + e <= 1023 ->
  exists m' n,
    binary_round_aux prec emax s (Zpos m) e loc_Exact = S754_finite s m' (e + n)
    /\ Zpos (digits2_pos m') = 53
    /\ Zpos (digits2_pos m) - 53 <= n <= Zpos (digits2_pos m) - 52
    /\ Z.abs (Zpos m' * 2 ^ n - Zpos m) <= 2 ^ (Zpos (digits2_pos m) - 53)
    /\ (Zpos (digits2_pos m) = 53 -> m' = m /\ n = 0).
Proof.
  intros Hd He Ho.
  pose proof (digits2_pos_lower m) as Hl. pose proof (digits2_pos_upper m) as Hu.
  unfold binary_round_aux. unfold shr_fexp at 1. cbn [Zdigits2].
  replace (fexp prec emax (Zpos (digits2_pos m) + e) - e) with (Zpos (digits2_pos m) - 53)
    by (unfold fexp, SpecFloat.emin, prec, emax; lia).
  destruct (Zpos (digits2_pos m) - 53) as [ | k | k] eqn:Ek; [ | | lia].
  - cbn [shr shr_record_of_loc shr_m shr_r shr_s loc_of_shr_record round_nearest_even].
    rewrite shr_fexp_canonical by lia. cbn [shr_m].
    replace (e <=? emax - prec) with true by (symmetry; apply Z.leb_le; unfold emax, prec; lia).
    exists m, 0. rewrite Z.add_0_r.
    split; [reflexivity | split; [lia | split; [lia | split; [ | tauto]]]].
    rewrite Z.pow_0_r, Z.mul_1_r, Z.sub_diag. cbn. lia.
  - cbn [shr shr_record_of_loc].
    set (mrs := iter_pos shr_1 k _).
    assert (Hq : shr_m mrs = Zpos m / 2 ^ Zpos k) by (unfold mrs; rewrite shr_m_iter; cbn; lia).
    assert (Hp : 0 < 2 ^ Zpos k) by (apply Z.pow_pos_nonneg; lia).
    assert (Hd' : Zpos (digits2_pos m) = 53 + Zpos k) by lia.
    assert (H52 : 2 ^ (Zpos (digits2_pos m) - 1) = 2 ^ 52 * 2 ^ Zpos k)
      by (rewrite <- Z.pow_add_r by lia; f_equal; lia).
    assert (H53 : 2 ^ Zpos (digits2_pos m) = 2 ^ 53 * 2 ^ Zpos k)
      by (rewrite <- Z.pow_add_r by lia; f_equal; lia).
    pose proof (Z.div_mod (Zpos m) (2 ^ Zpos k) ltac:(lia)) as Hdm.
    pose proof (Z.mod_pos_bound (Zpos m) (2 ^ Zpos k) Hp) as Hmb.
    set (q := Zpos m / 2 ^ Zpos k) in *.
    assert (Hqb : 2 ^ 52 <= q < 2 ^ 53) by nia.
    destruct (round_nearest_even_near (shr_m mrs) (loc_of_shr_record mrs)) as [HN | HN];
      rewrite HN, Hq.
    + destruct q as [ | n | n] eqn:En; try lia.
      assert (Hn : Zpos (digits2_pos n) = 53) by (apply digits2_pos_unique; lia).
      rewrite shr_fexp_canonical by lia. cbn [shr_m].
      replace (e + Zpos k <=? emax - prec) with true
        by (symmetry; apply Z.leb_le; unfold emax, prec; lia).
      exists n, (Zpos k).
      split; [reflexivity | split; [exact Hn | split; [lia | split; [ | lia]]]].
      replace (2 ^ (Zpos (digits2_pos m) - 53)) with (2 ^ Zpos k) by (f_equal; lia).
      lia.
    + destruct (Z.eq_dec (q + 1) (2 ^ 53)) as [Ec | Ec].
      * rewrite Ec. change (2 ^ 53) with (Zpos 9007199254740992).
        unfold shr_fexp. cbn [Zdigits2 digits2_pos Pos.succ].
        replace (fexp prec emax (54 + (e + Zpos k)) - (e + Zpos k)) with 1
          by (unfold fexp, SpecFloat.emin, prec, emax; lia).
        cbn [shr shr_record_of_loc iter_pos shr_1 shr_m].
        replace (e + Zpos k + 1 <=? emax - prec) with true
          by (symmetry; apply Z.leb_le; unfold emax, prec; lia).
        exists 4503599627370496%positive, (Zpos k + 1).
        split; [f_equal; lia | split; [reflexivity | split; [lia | split; [ | lia]]]].
        replace (2 ^ (Zpos (digits2_pos m) - 53)) with (2 ^ Zpos k) by (f_equal; lia).
        rewrite Z.pow_add_r by lia. change (2 ^ 53) with 9007199254740992 in Ec. lia.
      * destruct (q + 1) as [ | n | n] eqn:En; try lia.
        assert (Hn : Zpos (digits2_pos n) = 53) by (apply digits2_pos_unique; lia).
        rewrite shr_fexp_canonical by lia. cbn [shr_m].
        replace (e + Zpos k <=? emax - prec) with true
          by (symmetry; apply Z.leb_le; unfold emax, prec; lia).
        exists n, (Zpos k).
        split; [reflexivity | split; [exact Hn | split; [lia | split; [ | lia]]]].
        replace (2 ^ (Zpos (digits2_pos m) - 53)) with (2 ^ Zpos k) by (f_equal; lia).
        lia.
Qed.

(** Rounding any mantissa, in the range of the normal numbers: the result
    has 53 bits and its value is within 2^-52 of the value rounded,
    relatively.  Values are scaled by 2^200 to stay integers. *)
Lemma binary_round_normal (s : bool) (m : positive) (e : Z) :
  -148 <= e ->
  Zpos (digits2_pos m) + e <= 1023 ->
  exists m' e',
    binary_round prec emax s m e = S754_finite s m' e'
    /\ Zpos (digits2_pos m') = 53
    /\ -200 <= e'
    /\ e + Zpos (digits2_pos m) - 53 <= e' <= e + Zpos (digits2_pos m) - 52
    /\ 2 ^ 52 * Z.abs (Zpos m' * 2 ^ (e' + 200) - Zpos m * 2 ^ (e + 200))
       <= Zpos m * 2 ^ (e + 200).
Proof.
  intros He Ho.
  pose proof (digits2_pos_lower m) as Hl. pose proof (digits2_pos_upper m) as Hu.
  assert (Hd1 : 1 <= Zpos (digits2_pos m)) by lia.
  assert (Hp : 0 < 2 ^ (e + 200)) by (apply Z.pow_pos_nonneg; lia).
  unfold binary_round, shl_align.
  replace (fexp prec emax (Zpos (digits2_pos m) + e) - e) with (Zpos (digits2_pos m) - 53)
    by (unfold fexp, SpecFloat.emin, prec, emax; lia).
  destruct (Zpos (digits2_pos m) - 53) as [ | k | k] eqn:Ek.
  - destruct (binary_round_aux_normal s m e) as (m' & n & -> & Hd' & Hn & Hv & Hx); try lia.
    destruct (Hx ltac:(lia)) as [-> ->].
    exists m, (e + 0). rewrite !Z.add_0_r.
    split; [reflexivity | split; [lia | split; [lia | split; [lia | ]]]].
    rewrite Z.sub_diag. cbn [Z.abs]. lia.
  - destruct (binary_round_aux_normal s m e) as (m' & n & -> & Hd' & Hn & Hv & Hx); try lia.
    exists m', (e + n).
    split; [reflexivity | split; [exact Hd' | split; [lia | split; [lia | ]]]].
    replace (e + n + 200) with (n + (e + 200)) by lia.
    rewrite Z.pow_add_r by lia.
    replace (Zpos m' * (2 ^ n * 2 ^ (e + 200)) - Zpos m * 2 ^ (e + 200))
      with ((Zpos m' * 2 ^ n - Zpos m) * 2 ^ (e + 200)) by ring.
    rewrite Z.abs_mul, (Z.abs_eq (2 ^ (e + 200))) by lia.
    assert (H52 : 2 ^ 52 * 2 ^ (Zpos (digits2_pos m) - 53) = 2 ^ (Zpos (digits2_pos m) - 1))
      by (rewrite <- Z.pow_add_r by lia; f_equal; lia).
    nia.
  - replace (fexp prec emax (Zpos (digits2_pos m) + e)) with (e - Zpos k)
      by (unfold fexp, SpecFloat.emin, prec, emax; lia).
    assert (Hk : Zpos (digits2_pos (Pos.iter xO m k)) = 53) by (rewrite digits2_pos_iter; lia).
    destruct (binary_round_aux_normal s (Pos.iter xO m k) (e - Zpos k))
      as (m' & n & -> & Hd' & Hn & Hv & Hx); try lia.
    destruct (Hx Hk) as [-> ->].
    exists (Pos.iter xO m k), (e - Zpos k + 0). rewrite !Z.add_0_r.
    split; [reflexivity | split; [exact Hk | split; [lia | split; [lia | ]]]].
    rewrite Zpos_iter.
    replace (e + 200) with (Zpos k + (e - Zpos k + 200)) by lia.
    rewrite (Z.pow_add_r 2 (Zpos k)) by lia.
    replace (Zpos m * 2 ^ Zpos k * 2 ^ (e - Zpos k + 200)
             - Zpos m * (2 ^ Zpos k * 2 ^ (e - Zpos k + 200))) with 0 by ring.
    cbn [Z.abs].
    assert (0 < 2 ^ Zpos k) by (apply Z.pow_pos_nonneg; lia).
    assert (0 < 2 ^ (e - Zpos k + 200)) by (apply Z.pow_pos_nonneg; lia).
    nia.
Qed.

(** The product of two normal positive floats. *)
Lemma SFmul_normal (m1 m2 : positive) (e1 e2 : Z) :
  Zpos (digits2_pos m1) = 53 -> Zpos (digits2_pos m2) = 53 ->
  -100 <= e1 <= 400 -> -100 <= e2 <= 400 ->
  exists m' e',
    SFmul prec emax (S754_finite false m1 e1) (S754_finite false m2 e2)
    = S754_finite false m' e'
    /\ Zpos (digits2_pos m') = 53
    /\ e1 + e2 + 52 <= e' <= e1 + e2 + 54
    /\ 2 ^ 52 * Z.abs (Zpos m' * 2 ^ (e' + 200) - Zpos (m1 * m2) * 2 ^ (e1 + e2 + 200))
       <= Zpos (m1 * m2) * 2 ^ (e1 + e2 + 200).
Proof.
  intros H1 H2 He1 He2. cbn [SFmul xorb].
  pose proof (digits2_pos_lower m1) as L1. pose proof (digits2_pos_upper m1) as U1.
  pose proof (digits2_pos_lower m2) as L2. pose proof (digits2_pos_upper m2) as U2.
  rewrite H1 in L1, U1. rewrite H2 in L2, U2.
  pose proof (digits2_pos_lower (m1 * m2)) as L. pose proof (digits2_pos_upper (m1 * m2)) as U.
  assert (Hd : 105 <= Zpos (digits2_pos (m1 * m2)) <= 106).
  { rewrite Pos2Z.inj_mul in L, U.
    assert (Hlo : 2 ^ 104 <= Zpos m1 * Zpos m2) by (change (2 ^ 104) with (2 ^ 52 * 2 ^ 52); nia).
    assert (Hhi : Zpos m1 * Zpos m2 < 2 ^ 106) by (change (2 ^ 106) with (2 ^ 53 * 2 ^ 53); nia).
    split.
    - destruct (Z.le_gt_cases 105 (Zpos (digits2_pos (m1 * m2)))) as [H | H]; [exact H | ].
      assert (2 ^ Zpos (digits2_pos (m1 * m2)) <= 2 ^ 104) by (apply Z.pow_le_mono_r; lia). lia.
    - destruct (Z.le_gt_cases (Zpos (digits2_pos (m1 * m2))) 106) as [H | H]; [exact H | ].
      assert (2 ^ 106 <= 2 ^ (Zpos (digits2_pos (m1 * m2)) - 1)) by (apply Z.pow_le_mono_r; lia).
      lia. }
  destruct (binary_round_aux_normal false (m1 * m2) (e1 + e2))
    as (m' & n & -> & Hd' & Hn & Hv & _); try lia.
  exists m', (e1 + e2 + n).
  split; [reflexivity | split; [exact Hd' | split; [lia | ]]].
  assert (Hp : 0 < 2 ^ (e1 + e2 + 200)) by (apply Z.pow_pos_nonneg; lia).
  replace (e1 + e2 + n + 200) with (n + (e1 + e2 + 200)) by lia.
  rewrite Z.pow_add_r by lia.
  replace (Zpos m' * (2 ^ n * 2 ^ (e1 + e2 + 200)) - Zpos (m1 * m2) * 2 ^ (e1 + e2 + 200))
    with ((Zpos m' * 2 ^ n - Zpos (m1 * m2)) * 2 ^ (e1 + e2 + 200)) by ring.
  rewrite Z.abs_mul, (Z.abs_eq (2 ^ (e1 + e2 + 200))) by lia.
  assert (H52 : 2 ^ 52 * 2 ^ (Zpos (digits2_pos (m1 * m2)) - 53)
                = 2 ^ (Zpos (digits2_pos (m1 * m2)) - 1))
    by (rewrite <- Z.pow_add_r by lia; f_equal; lia).
  nia.
Qed.

Lemma shl_align_fst (m : positive) (e ez : Z) :
  ez <= e -> Zpos (fst (shl_align m e ez)) = Zpos m * 2 ^ (e - ez).
Proof.
  intros H. unfold shl_align.
  destruct (ez - e) as [ | k | k] eqn:Ek; try lia; cbn [fst].
  - replace (e - ez) with 0 by lia. lia.
  - rewrite Zpos_iter. f_equal. f_equal. lia.
Qed.

Lemma digits2_pos_le (m : positive) (k : Z) :
  Zpos m < 2 ^ k -> Zpos (digits2_pos m) <= k.
Proof.
  intros H. pose proof (digits2_pos_lower m) as L.
  destruct (Z.le_gt_cases (Zpos (digits2_pos m)) k) as [Hk | Hk]; [exact Hk | ].
  assert (2 ^ k <= 2 ^ (Zpos (digits2_pos m) - 1)) by (apply Z.pow_le_mono_r; lia). lia.
Qed.

(** The difference of two normal positive floats: zero when they are equal,
    of the sign of the exact difference otherwise, and within 2^-52 of it,
    relatively, when it is positive. *)
Lemma SFsub_normal (m1 m2 : positive) (e1 e2 : Z) :
  Zpos (digits2_pos m1) = 53 -> Zpos (digits2_pos m2) = 53 ->
  -100 <= e1 <= 400 -> -100 <= e2 <= 400 ->
  let x := Zpos m1 * 2 ^ (e1 + 200) - Zpos m2 * 2 ^ (e2 + 200) in
  let d := SFsub prec emax (S754_finite false m1 e1) (S754_finite false m2 e2) in
  (x = 0 -> d = S754_zero false)
  /\ (x < 0 -> exists m' e', d = S754_finite true m' e')
  /\ (0 < x -> exists m' e',
        d = S754_finite false m' e'
        /\ Zpos (digits2_pos m') = 53
        /\ -200 <= e'
        /\ 2 ^ 52 * Z.abs (Zpos m' * 2 ^ (e' + 200) - x) <= x).
Proof.
  intros H1 H2 He1 He2 x d. unfold d. cbn [SFsub cond_Zopp].
  set (ez := Z.min e1 e2).
  rewrite (shl_align_fst m1 e1 ez), (shl_align_fst m2 e2 ez) by (unfold ez; lia).
  set (D := Zpos m1 * 2 ^ (e1 - ez) - Zpos m2 * 2 ^ (e2 - ez)).
  assert (Hz : -100 <= ez <= 400) by (unfold ez; lia).
  assert (Hp : 0 < 2 ^ (ez + 200)) by (apply Z.pow_pos_nonneg; lia).
  assert (Hx : x = D * 2 ^ (ez + 200)).
  { unfold x, D. rewrite Z.mul_sub_distr_r, <- !Z.mul_assoc, <- !Z.pow_add_r by (unfold ez; lia).
    f_equal; f_equal; f_equal; lia. }
  pose proof (digits2_pos_upper m1) as U1. pose proof (digits2_pos_upper m2) as U2.
  rewrite H1 in U1. rewrite H2 in U2.
  assert (Hb : Z.abs D < 2 ^ 553).
  { assert (Ha : 0 < 2 ^ (e1 - ez) <= 2 ^ 500)
      by (split; [apply Z.pow_pos_nonneg | apply Z.pow_le_mono_r]; unfold ez; lia).
    assert (Hb : 0 < 2 ^ (e2 - ez) <= 2 ^ 500)
      by (split; [apply Z.pow_pos_nonneg | apply Z.pow_le_mono_r]; unfold ez; lia).
    change (2 ^ 553) with (2 ^ 53 * 2 ^ 500). unfold D. nia. }
  destruct D as [ | k | k] eqn:ED; cbn [binary_normalize].
  - split; [reflexivity | split; intros; lia].
  - assert (Hk : Zpos (digits2_pos k) <= 553) by (apply digits2_pos_le; lia).
    destruct (binary_round_normal false k ez) as (m' & e' & -> & Hd' & He' & _ & Hv); try lia.
    split; [intros; lia | split; [intros; lia | intros _]].
    exists m', e'. rewrite Hx. repeat split; trivial.
  - assert (Hk : Zpos (digits2_pos k) <= 553) by (apply digits2_pos_le; lia).
    destruct (binary_round_normal true k ez) as (m' & e' & -> & _); try lia.
    split; [intros; lia | split; [intros _ | intros; lia]].
    now exists m', e'.
Qed.

(** Two normal positive floats compare as their values do. *)
Lemma SFltb_normal (m1 m2 : positive) (e1 e2 : Z) :
  Zpos (digits2_pos m1) = 53 -> Zpos (digits2_pos m2) = 53 ->
  -200 <= e1 -> -200 <= e2 ->
  Zpos m1 * 2 ^ (e1 + 200) < Zpos m2 * 2 ^ (e2 + 200) ->
  SFltb (S754_finite false m1 e1) (S754_finite false m2 e2) = true.
Proof.
  intros H1 H2 He1 He2 Hlt. unfold SFltb. cbn [SFcompare].
  pose proof (digits2_pos_lower m1) as L1. pose proof (digits2_pos_upper m1) as U1.
  pose proof (digits2_pos_lower m2) as L2. pose proof (digits2_pos_upper m2) as U2.
  rewrite H1 in L1, U1. rewrite H2 in L2, U2.
  destruct (Z.compare_spec e1 e2) as [E | E | E]; [ | reflexivity | exfalso].
  - subst e2. assert (Hp : 0 < 2 ^ (e1 + 200)) by (apply Z.pow_pos_nonneg; lia).
    assert (Hm : Zpos m1 < Zpos m2) by nia.
    change (Pos.compare_cont Eq m1 m2) with (Pos.compare m1 m2).
    apply Pos.compare_lt_iff in Hm. now rewrite Hm.
  - assert (Hp : 0 < 2 ^ (e2 + 200)) by (apply Z.pow_pos_nonneg; lia).
    replace (e1 + 200) with ((e1 - e2) + (e2 + 200)) in Hlt by lia.
    rewrite Z.pow_add_r in Hlt by lia.
    assert (Hq : 2 <= 2 ^ (e1 - e2))
      by (change 2 with (2 ^ 1) at 1; apply Z.pow_le_mono_r; lia).
    change (2 ^ (53 - 1)) with 4503599627370496 in *.
    change (2 ^ 53) with 9007199254740992 in *.
    assert (H3 : Zpos m2 < Zpos m1 * 2 ^ (e1 - e2)) by nia.
    assert (H4 : Zpos m2 * 2 ^ (e2 + 200) < Zpos m1 * 2 ^ (e1 - e2) * 2 ^ (e2 + 200))
      by (apply Z.mul_lt_mono_pos_r; assumption).
    rewrite <- Z.mul_assoc in H4. lia.
Qed.

(* ------------------------------------------------------------------ *)
(** ** The scenario estimator *)

(** *** Checking a property over the table and the slider *)

Lemma table_check_sound (P : float -> float -> bool) :
  table_check P = true ->
  forall j, In j jurisdictions ->
    exists v f, official j = Ok (v, f) /\ P v f = true.
Proof.
  unfold table_check. rewrite forallb_forall. intros H j Hj.
  specialize (H j Hj). destruct (official j) as [[v f] | ]; [ | discriminate].
  now exists v, f.
Qed.

Lemma slider_check_sound (P : Z -> bool) :
  slider_check P = true -> forall p, In p slider_values -> P p = true.
Proof. unfold slider_check. now rewrite forallb_forall. Qed.

Lemma whole_shares_spec (p : Z) : 0 <= p <= 100 -> In p whole_shares.
Proof.
  intros H. unfold whole_shares. apply in_map_iff.
  exists (Z.to_nat p). split; [lia | apply in_seq; lia].
Qed.

(** The clamp, case by case. *)
Lemma max0_cases (x : float) :
  (PrimFloat.ltb x 0 = true -> F64.max0 x = 0%float)
  /\ (PrimFloat.ltb x 0 = false -> F64.max0 x = x).
Proof. unfold F64.max0, PrimFloat.zero. split; intros ->; reflexivity. Qed.

(** What the estimator returns, as binary64 expressions of its three
    inputs: the share is divided by 100 first, then multiplied by the
    facilities; the solo veterinarians are that product (times 1.0 changes no
    float); the multi-structure veterinarians are the difference with the
    active veterinarians, replaced by 0 when it is negative. *)
Lemma estimate_cases (vets facs : float) (solo_share : Z) :
  let s := (facs * (F64.of_int solo_share / 100))%float in
  let e := estimate vets facs solo_share in
  solo_facilities e = s
  /\ solo_vets_est e = s
  /\ (PrimFloat.ltb (vets - s) 0 = true -> multi_vets_est e = 0%float)
  /\ (PrimFloat.ltb (vets - s) 0 = false -> multi_vets_est e = (vets - s)%float).
Proof.
  intros s e. unfold e, estimate. cbn [solo_facilities solo_vets_est multi_vets_est].
  rewrite mul_one_r. fold s.
  split; [reflexivity | split; [reflexivity | apply max0_cases]].
Qed.

(** A whole share from 0 to 100 is a float, exactly. *)
Lemma share_exact (p : Z) :
  0 <= p <= 100 -> int_of_float (F64.of_int p) = Ok p.
Proof.
  intros Hp. apply whole_shares_spec in Hp.
  assert (Hall : forallb (fun q => match int_of_float (F64.of_int q) with
                                   | Ok n => n =? q
                                   | Raise _ => false
                                   end) whole_shares = true) by (vm_compute; reflexivity).
  rewrite forallb_forall in Hall. specialize (Hall p Hp). cbv beta in Hall.
  destruct (int_of_float (F64.of_int p)) as [n | ]; [ | discriminate Hall].
  apply Z.eqb_eq in Hall. now subst n.
Qed.

(** How far the float product is from the exact [f * p / 100], checked for
    a pair of counts over every whole share. *)
Lemma accuracy_check_sound (v f : Z) :
  forallb (fun p =>
    match F64.to_Q (solo_facilities (estimate (F64.of_int v) (F64.of_int f) p)) with
    | Some q => Qle_bool (Qabs (q - (f * p # 100))) (1 # 1000000000000)
    | None => false
    end) whole_shares = true ->
  forall p, 0 <= p <= 100 ->
    exists q, F64.to_Q (solo_facilities (estimate (F64.of_int v) (F64.of_int f) p)) = Some q
              /\ (Qabs (q - (f * p # 100)) <= 1 # 1000000000000)%Q.
Proof.
  intros H p Hp. rewrite forallb_forall in H.
  specialize (H p (whole_shares_spec p Hp)). cbv beta in H.
  destruct (F64.to_Q _) as [q | ]; [ | discriminate H].
  exists q. split; [reflexivity | now apply Qle_bool_iff].
Qed.

(** C1, as stated, fails: [facilities * solo_share_pct / 100] is not what
    the estimator computes.  For Québec at 15 % the formula gives the float
    141.3 and the estimator the float below it. *)
Lemma solo_not_as_claimed : ~ solo_as_claimed.
Proof.
  intros H. specialize (H 3212%float 942%float 15).
  apply (f_equal Prim2SF) in H; [ | vm_compute; reflexivity .. | lia].
  vm_compute in H. discriminate H.
Qed.

(** C1, amended.  For every [active_vets] and [facilities] and every whole
    share from 0 to 100, the share is converted to a float exactly and the
    estimator returns [solo_facilities = facilities * (solo_share / 100)]
    computed in binary64 in this order, [solo_vets = solo_facilities], and
    [multi_vets = active_vets - solo_vets] when that difference is not
    negative, 0 when it is.  On the 12 rows of the table and every whole
    share from 0 to 100 the float [solo_facilities] lies within 10^-12 of the
    exact [facilities * share / 100].  For Québec (3212 active veterinarians,
    942 facilities) at 20 % the three values are the floats 188.4, 188.4 and
    3023.6; for 10 veterinarians, 100 facilities and 50 % the difference
    10 - 50 is negative and [multi_vets] is 0. *)
Theorem estimate_spec :
  (forall (vets facs : float) (solo_share : Z),
     0 <= solo_share <= 100 ->
     let s := (facs * (F64.of_int solo_share / 100))%float in
     let e := estimate vets facs solo_share in
     int_of_float (F64.of_int solo_share) = Ok solo_share
     /\ solo_facilities e = s
     /\ solo_vets_est e = s
     /\ (PrimFloat.ltb (vets - s) 0 = true -> multi_vets_est e = 0%float)
     /\ (PrimFloat.ltb (vets - s) 0 = false -> multi_vets_est e = (vets - s)%float))
  /\ (forall j, In j jurisdictions ->
        exists v f : Z,
          dict_getitem vets_active_2023_24 j = Ok v
          /\ dict_getitem facilities_2023_24 j = Ok f
          /\ official j = Ok (F64.of_int v, F64.of_int f)
          /\ forall p, 0 <= p <= 100 ->
                exists q,
                  F64.to_Q (solo_facilities (estimate (F64.of_int v) (F64.of_int f) p)) = Some q
                  /\ (Qabs (q - (f * p # 100)) <= 1 # 1000000000000)%Q)
  /\ official "Québec (QC)" = Ok (3212, 942)%float
  /\ solo_facilities (estimate 3212 942 20) = 188.4%float
  /\ solo_vets_est (estimate 3212 942 20) = 188.4%float
  /\ multi_vets_est (estimate 3212 942 20) = 3023.6%float
  /\ PrimFloat.ltb (10 - solo_vets_est (estimate 10 100 50)) 0 = true
  /\ multi_vets_est (estimate 10 100 50) = 0%float.
Proof.
  split; [ | split].
  - intros vets facs solo_share Hs.
    split; [exact (share_exact solo_share Hs) | exact (estimate_cases vets facs solo_share)].
  - intros j H. unfold jurisdictions in H. cbn [In map fst vets_active_2023_24] in H.
    repeat (destruct H as [H | H];
            [subst j; do 2 eexists;
             split; [vm_compute; reflexivity | ];
             split; [vm_compute; reflexivity | ];
             split; [vm_compute; reflexivity | ];
             apply accuracy_check_sound; vm_compute; reflexivity | ]).
    contradiction.
  - repeat split; vm_compute; reflexivity.
Qed.

Lemma estimate_spec_witness :
  multi_vets_est (estimate 10 100 50) = 0%float
  /\ multi_vets_est (estimate 3212 942 20) = (3212 - 942 * (F64.of_int 20 / 100))%float.
Proof.
  split.
  - apply (proj1 (proj2 (proj2 (proj2 (proj1 estimate_spec 10%float 100%float 50
                                          ltac:(lia)))))).
    vm_compute; reflexivity.
  - apply (proj2 (proj2 (proj2 (proj2 (proj1 estimate_spec 3212%float 942%float 20
                                          ltac:(lia)))))).
    vm_compute; reflexivity.
Defined.

(** The float the estimator returns need not be the float nearest to the
    exact product: for Québec at 15 % it is one unit in the last place below
    141.3, the float that [942 * 15 / 100] gives.  Both print as 141. *)
Example estimate_rounds :
  solo_facilities (estimate 3212 942 15) = 141.29999999999998%float
  /\ (942 * 15 / 100)%float = 141.3%float
  /\ PrimFloat.ltb (solo_facilities (estimate 3212 942 15)) 141.3 = true
  /\ Fmt.fixed false 0 (solo_facilities (estimate 3212 942 15)) = "141"%string.
Proof. repeat split; vm_compute; reflexivity. Qed.

Lemma zero_times_share (p : Z) :
  0 <= p <= 100 -> (0 * (F64.of_int p / 100))%float = 0%float.
Proof.
  intros Hp. apply whole_shares_spec in Hp.
  assert (Hall : forallb (fun q => PrimFloat.Leibniz.eqb (0 * (F64.of_int q / 100))%float 0%float)
                   whole_shares = true) by (vm_compute; reflexivity).
  rewrite forallb_forall in Hall.
  now apply FloatAxioms.Leibniz.eqb_spec, Hall.
Qed.

(** With no facility the estimate does not depend on the share: no facility
    and no veterinarian is solo, and every veterinarian is counted in a
    multi-vet structure ([active_vets] itself, or 0 when it is negative). *)
Theorem estimate_no_facilities (vets : float) (p : Z) :
  0 <= p <= 100 ->
  solo_facilities (estimate vets 0 p) = 0%float
  /\ solo_vets_est (estimate vets 0 p) = 0%float
  /\ (PrimFloat.ltb vets 0 = true -> multi_vets_est (estimate vets 0 p) = 0%float)
  /\ (PrimFloat.ltb vets 0 = false -> multi_vets_est (estimate vets 0 p) = vets).
Proof.
  intros Hp. unfold estimate. cbn [solo_facilities solo_vets_est multi_vets_est].
  rewrite (zero_times_share p Hp). change (0 * 1)%float with 0%float.
  rewrite sub_zero_r.
  split; [reflexivity | split; [reflexivity | apply max0_cases]].
Qed.

(** C2, as stated, fails: with no facility (an input the contract allows)
    a larger share leaves [multi_vets] where it was. *)
Lemma multi_not_strictly_decreasing : ~ multi_strictly_decreasing.
Proof.
  intros H.
  specialize (H 1%float 0%float 0 5).
  vm_compute in H.
  assert (C : false = true); [ | discriminate C].
  apply H; try reflexivity; intros C; discriminate C.
Qed.

(** Strictness also fails for a positive number of facilities once the
    subtraction absorbs the estimate: at 2^53 veterinarians and one
    facility, 5 % and 0 % give the same float. *)
Example multi_absorbed :
  multi_vets_est (estimate 9007199254740992 1 5)
  = multi_vets_est (estimate 9007199254740992 1 0).
Proof. vm_compute; reflexivity. Qed.

(** *** The estimate of multi-structure veterinarians decreases *)

Lemma shares_ok : forallb share_ok whole_shares = true.
Proof. vm_compute. reflexivity. Qed.

(** The float of a share: zero at 0 %, and otherwise a normal float within
    2^-46 of [p / 100] (values scaled by 2^200). *)
Lemma share_float (p : Z) :
  0 <= p <= 100 ->
  (p = 0 /\ Prim2SF (F64.of_int p / 100) = S754_zero false)
  \/ (1 <= p /\ exists M E,
        Prim2SF (F64.of_int p / 100) = S754_finite false M E
        /\ Zpos (digits2_pos M) = 53 /\ -59 <= E <= -52
        /\ Z.abs (100 * (Zpos M * 2 ^ (E + 200)) - p * 2 ^ 200) <= 2 ^ 154).
Proof.
  intros Hp. pose proof shares_ok as H. rewrite forallb_forall in H.
  specialize (H p (whole_shares_spec p Hp)). unfold share_ok in H.
  destruct (Prim2SF (F64.of_int p / 100)) as [[ | ] | | | [ | ] M E]; try discriminate H.
  - left. apply Z.eqb_eq in H. now split.
  - right. rewrite !andb_true_iff in H. destruct H as [[[[H1 H2] H3] H4] H5].
    apply Z.leb_le in H1, H3, H4, H5. apply Z.eqb_eq in H2.
    split; [exact H1 | ]. exists M, E. repeat split; trivial.
Qed.

(** The float of a count from 1 up to 2^53 (excluded). *)
Lemma of_int_normal (n : Z) :
  1 <= n < 2 ^ 53 ->
  exists m e,
    Prim2SF (F64.of_int n) = S754_finite false m e
    /\ Zpos (digits2_pos m) = 53 /\ -52 <= e <= 0
    /\ Zpos m * 2 ^ (e + 200) = n * 2 ^ 200.
Proof.
  intros Hn. rewrite (Prim2SF_of_int n) by lia.
  destruct n as [ | k | k]; try lia. cbn [binary_normalize].
  destruct (binary_round_exact false k) as (m & e & -> & He & Hm & _ & Hd & He'); [lia | ].
  exists m, e. split; [reflexivity | split; [exact Hd | split; [lia | ]]].
  rewrite Hm, <- Z.mul_assoc, <- Z.pow_add_r by lia. f_equal. f_equal. lia.
Qed.

(** The clamp on a float given by its binary form. *)
Lemma max0_negative (d : float) (m : positive) (e : Z) :
  Prim2SF d = S754_finite true m e -> F64.max0 d = 0%float.
Proof.
  intros H. apply max0_cases. rewrite FloatAxioms.ltb_spec, H. reflexivity.
Qed.

Lemma max0_zero (d : float) (s : bool) :
  Prim2SF d = S754_zero s -> F64.max0 d = d.
Proof.
  intros H. apply max0_cases. rewrite FloatAxioms.ltb_spec, H. now destruct s.
Qed.

Lemma max0_positive (d : float) (m : positive) (e : Z) :
  Prim2SF d = S754_finite false m e -> F64.max0 d = d.
Proof.
  intros H. apply max0_cases. rewrite FloatAxioms.ltb_spec, H. reflexivity.
Qed.

(** The solo estimate of [F] facilities at [p] %: zero at 0 %, and otherwise
    a normal float whose value [S] is within 2^-52, relatively, of [F] times
    the value [A] of the share float (both scaled by 2^200). *)
Lemma solo_float (F p : Z) :
  1 <= F < 2 ^ 40 -> 0 <= p <= 100 ->
  exists A S : Z,
    Z.abs (100 * A - p * 2 ^ 200) <= 2 ^ 154
    /\ 2 ^ 52 * Z.abs (S - F * A) <= F * A
    /\ ((S = 0 /\ Prim2SF (F64.of_int F * (F64.of_int p / 100)) = S754_zero false)
        \/ (exists m e,
              Prim2SF (F64.of_int F * (F64.of_int p / 100)) = S754_finite false m e
              /\ Zpos (digits2_pos m) = 53 /\ -100 <= e <= 400
              /\ S = Zpos m * 2 ^ (e + 200))).
Proof.
  intros HF Hp.
  destruct (of_int_normal F) as (mF & eF & EF & HdF & HeF & HvF); [lia | ].
  rewrite FloatAxioms.mul_spec, EF.
  destruct (share_float p Hp) as [[-> Ea] | (Hp1 & M & E & Ea & HdM & HE & HA)]; rewrite Ea.
  - exists 0, 0. split; [apply Z.leb_le; reflexivity | ].
    split; [rewrite Z.mul_0_r, Z.sub_diag; cbn [Z.abs]; lia | ]. left. now split.
  - destruct (SFmul_normal mF M eF E) as (m & e & Em & Hdm & Hem & Hv); try lia.
    exists (Zpos M * 2 ^ (E + 200)), (Zpos m * 2 ^ (e + 200)).
    split; [exact HA | ].
    assert (Hprod : Zpos (mF * M) * 2 ^ (eF + E + 200) = F * (Zpos M * 2 ^ (E + 200))).
    { apply (Z.mul_reg_r _ _ (2 ^ 200)); [lia | ].
      transitivity (Zpos mF * 2 ^ (eF + 200) * (Zpos M * 2 ^ (E + 200))).
      - rewrite Pos2Z.inj_mul.
        replace (2 ^ 200) with (2 ^ (200 - (E + 200)) * 2 ^ (E + 200)) at 1
          by (rewrite <- Z.pow_add_r by lia; f_equal; lia).
        replace (eF + 200) with ((eF + E + 200) + (200 - (E + 200))) by lia.
        rewrite (Z.pow_add_r 2 (eF + E + 200)) by lia. ring.
      - rewrite HvF. ring. }
    rewrite Hprod in Hv.
    split; [exact Hv | ]. right. exists m, e. repeat split; trivial; lia.
Qed.

(** The multi-structure estimate for [V] veterinarians and [F] facilities
    at [p] %, by the sign of the exact difference [x] between [V] and the
    solo estimate [S]: 0 when [x] is negative, a zero when it is zero, and a
    normal float within 2^-52 of [x], relatively, when it is positive. *)
Lemma multi_float (V F p : Z) :
  0 <= V < 2 ^ 40 -> 1 <= F < 2 ^ 40 -> 0 <= p <= 100 ->
  exists A S : Z,
    Z.abs (100 * A - p * 2 ^ 200) <= 2 ^ 154
    /\ 2 ^ 52 * Z.abs (S - F * A) <= F * A
    /\ (V * 2 ^ 200 - S < 0 ->
        multi_vets_est (estimate (F64.of_int V) (F64.of_int F) p) = 0%float)
    /\ (V * 2 ^ 200 - S = 0 ->
        exists s, Prim2SF (multi_vets_est (estimate (F64.of_int V) (F64.of_int F) p))
                  = S754_zero s)
    /\ (0 < V * 2 ^ 200 - S ->
        exists m e,
          Prim2SF (multi_vets_est (estimate (F64.of_int V) (F64.of_int F) p))
          = S754_finite false m e
          /\ Zpos (digits2_pos m) = 53 /\ -200 <= e
          /\ 2 ^ 52 * Z.abs (Zpos m * 2 ^ (e + 200) - (V * 2 ^ 200 - S))
             <= V * 2 ^ 200 - S).
Proof.
  intros HV HF Hp.
  destruct (solo_float F p HF Hp) as (A & S & HA & HS & Hsolo).
  exists A, S. split; [exact HA | split; [exact HS | ]].
  unfold estimate. cbn [multi_vets_est]. rewrite mul_one_r.
  set (solo := (F64.of_int F * (F64.of_int p / 100))%float) in *.
  set (D := (F64.of_int V - solo)%float).
  assert (ED : Prim2SF D = SFsub prec emax (Prim2SF (F64.of_int V)) (Prim2SF solo))
    by apply FloatAxioms.sub_spec.
  destruct (Z.eq_dec V 0) as [-> | HV0].
  - change (Prim2SF (F64.of_int 0)) with (S754_zero false) in ED.
    destruct Hsolo as [[-> Es] | (m & e & Es & Hd & He & ->)]; rewrite Es in ED; cbn in ED.
    + split; [intros; lia | split; [intros _ | intros; lia]].
      rewrite (max0_zero D false ED). now exists false.
    + assert (0 < Zpos m * 2 ^ (e + 200)) by (apply Z.mul_pos_pos; [lia | apply Z.pow_pos_nonneg; lia]).
      split; [intros _ | split; intros; lia].
      exact (max0_negative D m e ED).
  - destruct (of_int_normal V) as (mV & eV & EV & HdV & HeV & HvV); [lia | ].
    rewrite EV in ED.
    destruct Hsolo as [[-> Es] | (m & e & Es & Hd & He & ->)]; rewrite Es in ED.
    + cbn in ED. rewrite Z.sub_0_r.
      split; [intros; lia | split; [intros; lia | intros _]].
      rewrite (max0_positive D mV eV ED). exists mV, eV.
      split; [exact ED | split; [exact HdV | split; [lia | ]]].
      rewrite HvV, Z.sub_diag. cbn [Z.abs]. lia.
    + destruct (SFsub_normal mV m eV e HdV Hd ltac:(lia) He) as (H0 & Hneg & Hpos).
      rewrite HvV in H0, Hneg, Hpos. rewrite <- ED in H0, Hneg, Hpos.
      split; [ | split].
      * intros Hx. destruct (Hneg Hx) as (m' & e' & E'). exact (max0_negative D m' e' E').
      * intros Hx. rewrite (max0_zero D false (H0 Hx)). exists false. exact (H0 Hx).
      * intros Hx. destruct (Hpos Hx) as (m' & e' & E' & R).
        rewrite (max0_positive D m' e' E'). now exists m', e'.
Qed.

(** C2, amended.  For whole numbers of veterinarians (from 0) and of
    facilities (from 1) below 2^40 and any two whole shares [p1 < p2]
    between 0 and 100: if the multi-structure estimate at [p1] is positive,
    the estimate at [p2] is strictly below it.  The 12 rows of the table are
    such numbers. *)
Theorem multi_vets_decreasing :
  (forall V F p1 p2 : Z,
     0 <= V < 2 ^ 40 -> 1 <= F < 2 ^ 40 ->
     0 <= p1 -> p1 < p2 -> p2 <= 100 ->
     PrimFloat.ltb 0 (multi_vets_est (estimate (F64.of_int V) (F64.of_int F) p1)) = true ->
     PrimFloat.ltb (multi_vets_est (estimate (F64.of_int V) (F64.of_int F) p2))
                   (multi_vets_est (estimate (F64.of_int V) (F64.of_int F) p1)) = true)
  /\ (forall j, In j jurisdictions ->
        exists V F : Z,
          dict_getitem vets_active_2023_24 j = Ok V
          /\ dict_getitem facilities_2023_24 j = Ok F
          /\ official j = Ok (F64.of_int V, F64.of_int F)
          /\ 0 <= V < 2 ^ 40 /\ 1 <= F < 2 ^ 40).
Proof.
  split.
  - intros V F p1 p2 HV HF H0 Hlt H100 Hpos.
    destruct (multi_float V F p1) as (A1 & S1 & HA1 & HS1 & N1 & Z1 & P1); try lia.
    destruct (multi_float V F p2) as (A2 & S2 & HA2 & HS2 & N2 & Z2 & P2); try lia.
    rewrite FloatAxioms.ltb_spec in Hpos |- *.
    change (Prim2SF 0) with (S754_zero false) in Hpos.
    assert (Hx1 : 0 < V * 2 ^ 200 - S1).
    { destruct (Z.lt_trichotomy (V * 2 ^ 200 - S1) 0) as [H | [H | H]]; [ | | exact H].
      - rewrite (N1 H) in Hpos. discriminate Hpos.
      - destruct (Z1 H) as [s Es]. rewrite Es in Hpos. destruct s; discriminate Hpos. }
    destruct (P1 Hx1) as (m1 & e1 & E1 & Hd1 & He1 & R1). rewrite E1.
    destruct (Z.lt_trichotomy (V * 2 ^ 200 - S2) 0) as [H | [H | H]].
    + rewrite (N2 H). reflexivity.
    + destruct (Z2 H) as [s ->]. reflexivity.
    + destruct (P2 H) as (m2 & e2 & -> & Hd2 & He2 & R2).
      apply SFltb_normal; trivial.
      assert (HAA : 2 ^ 244 <= 2 ^ 52 * (A2 - A1) - (A1 + A2)) by lia.
      assert (HP : 2 ^ 244 <= 2 ^ 52 * (F * A2 - F * A1) - (F * A1 + F * A2)).
      { replace (2 ^ 52 * (F * A2 - F * A1) - (F * A1 + F * A2))
          with (2 ^ 52 * (A2 - A1) - (A1 + A2)
                + (F - 1) * (2 ^ 52 * (A2 - A1) - (A1 + A2))) by ring.
        assert (0 <= (F - 1) * (2 ^ 52 * (A2 - A1) - (A1 + A2)))
          by (apply Z.mul_nonneg_nonneg; lia).
        lia. }
      clear HAA HA1 HA2 N1 Z1 P1 N2 Z2 P2 E1 Hpos Hd1 Hd2 He1 He2.
      generalize dependent (F * A1). generalize dependent (F * A2).
      generalize dependent (Zpos m1 * 2 ^ (e1 + 200)).
      generalize dependent (Zpos m2 * 2 ^ (e2 + 200)).
      intros D2 D1 PA2 PA1. lia.
  - intros j H. unfold jurisdictions in H. cbn [In map fst vets_active_2023_24] in H.
    repeat (destruct H as [H | H];
            [subst j; do 2 eexists;
             split; [vm_compute; reflexivity | ];
             split; [vm_compute; reflexivity | ];
             split; [vm_compute; reflexivity | split; lia] | ]).
    contradiction.
Qed.

Lemma multi_vets_decreasing_witness :
  PrimFloat.ltb (multi_vets_est (estimate (F64.of_int 34) (F64.of_int 14) 100))
                (multi_vets_est (estimate (F64.of_int 34) (F64.of_int 14) 99)) = true.
Proof.
  apply (proj1 multi_vets_decreasing 34 14 99 100); try lia.
  vm_compute; reflexivity.
Defined.

(* ------------------------------------------------------------------ *)
(** ** The practice-type table *)

(** C3, as stated, fails: the shares do not add up to 100 within half a
    point. *)
Lemma shares_sum_not_100 : ~ shares_sum_near 100.
Proof.
  unfold shares_sum_near. intros H.
  apply Qle_bool_iff in H. vm_compute in H. discriminate H.
Qed.

(** C3, amended.  The eleven shares add up to 93.5 within half a point: the
    eleven headcounts total 2623 of the 2804 members. *)
Theorem shares_sum_value :
  shares_sum_near (935 # 10)
  /\ List.length shares = 11%nat
  /\ fold_right Z.add 0 (map snd qc_practice_records) = 2623
  /\ QC_OMVQ_MEMBERS_TOTAL = 2804.
Proof.
  repeat split; try (vm_compute; reflexivity).
  unfold shares_sum_near. apply Qle_bool_iff. vm_compute. reflexivity.
Qed.



(** NumPy's rounding and Python's differ on other inputs: the agreement above
    is a fact about the eleven rows. *)
Example around1_is_not_py_round1 :
  around1 0.35 = 0.4%float /\ py_round1 0.35 = 0.3%float.
Proof. split; vm_compute; reflexivity. Qed.

(* ------------------------------------------------------------------ *)
(** ** The Canada table *)

(** C5.  For each of the 12 jurisdictions the ratio column holds the active
    veterinarians divided by the accredited facilities; Québec's ratio,
    3212 / 942, prints as 3.41 with two decimals. *)
Theorem ratio_is_quotient :
  (forall j, In j jurisdictions ->
     exists v f,
       dict_getitem vets_active_2023_24 j = Ok v
       /\ dict_getitem facilities_2023_24 j = Ok f
       /\ lookup df_ca col_juris j col_ratio
          = Ok (CFloat (F64.of_int v / F64.of_int f)%float))
  /\ List.length jurisdictions = 12%nat
  /\ lookup df_ca col_juris "Québec (QC)" col_ratio = Ok (CFloat (3212 / 942)%float)
  /\ Fmt.fixed false 2 (3212 / 942)%float = "3.41"%string.
Proof.
  split; [ | repeat split; vm_compute; reflexivity].
  intros j H. unfold jurisdictions in H. cbn [In map fst vets_active_2023_24] in H.
  repeat (destruct H as [H | H];
          [subst j; do 2 eexists; repeat split; vm_compute; reflexivity | ]).
  contradiction.
Qed.

Lemma ratio_is_quotient_witness :
  exists v f,
    dict_getitem vets_active_2023_24 "Yukon (YK)" = Ok v
    /\ dict_getitem facilities_2023_24 "Yukon (YK)" = Ok f
    /\ lookup df_ca col_juris "Yukon (YK)" col_ratio
       = Ok (CFloat (F64.of_int v / F64.of_int f)%float).
Proof.
  apply (proj1 ratio_is_quotient "Yukon (YK)").
  unfold jurisdictions; cbn; tauto.
Defined.

(** C7.  Each of the 12 entries of the facilities table is at least 4, the
    facilities column of [df_ca] holds exactly these entries, and every
    ratio is a finite float: no row divides by zero. *)
Theorem facilities_positive :
  Forall (fun kv => 4 <= snd kv) facilities_2023_24
  /\ List.length facilities_2023_24 = 12%nat
  /\ rbind df_ca (fun d => getitem d col_facs)
     = Ok (map (fun kv => CInt (snd kv)) facilities_2023_24)
  /\ (exists ratios, rbind df_ca (fun d => getitem d col_ratio) = Ok ratios
        /\ List.length ratios = 12%nat
        /\ Forall (fun c => exists x, c = CFloat x /\ F64.is_finite x = true) ratios).
Proof.
  split; [ | split; [ | split]].
  - unfold facilities_2023_24. repeat constructor; cbn; lia.
  - reflexivity.
  - vm_compute; reflexivity.
  - eexists. split; [vm_compute; reflexivity | ]. split; [reflexivity | ].
    repeat constructor; eexists; (split; [reflexivity | vm_compute; reflexivity]).
Qed.

(** C10.  For each of the 12 jurisdictions and every slider position, the
    estimated solo veterinarians stay strictly below the active
    veterinarians: the subtraction is not negative, [max] returns it
    unchanged, and the multi-structure estimate is strictly positive. *)
Theorem clamp_never_fires :
  forall j, In j jurisdictions ->
    exists v f, official j = Ok (v, f) /\
      forall p, In p slider_values ->
        let e := estimate v f p in
        PrimFloat.ltb (solo_vets_est e) v = true
        /\ PrimFloat.ltb (v - solo_vets_est e) 0 = false
        /\ multi_vets_est e = (v - solo_vets_est e)%float
        /\ PrimFloat.ltb 0 (multi_vets_est e) = true.
Proof.
  intros j Hj.
  assert (Hall : table_check (fun v f => slider_check (fun p =>
            let e := estimate v f p in
            PrimFloat.ltb (solo_vets_est e) v
            && negb (PrimFloat.ltb (v - solo_vets_est e) 0)
            && PrimFloat.ltb 0 (multi_vets_est e))) = true)
    by (vm_compute; reflexivity).
  destruct (table_check_sound _ Hall j Hj) as (v & f & Hvf & H).
  exists v, f. split; [exact Hvf | ].
  intros p Hp e.
  pose proof (slider_check_sound _ H p Hp) as Hb. cbv beta zeta in Hb.
  fold e in Hb.
  apply andb_true_iff in Hb as [Hb H3]. apply andb_true_iff in Hb as [H1 H2].
  apply negb_true_iff in H2.
  repeat split; trivial.
  unfold e, estimate in *. cbn [multi_vets_est solo_vets_est] in *.
  unfold F64.max0, PrimFloat.zero. now rewrite H2.
Qed.

Lemma clamp_never_fires_witness :
  exists v f, official "Territoires du Nord-Ouest (NT)" = Ok (v, f) /\
    forall p, In p slider_values ->
      let e := estimate v f p in
      PrimFloat.ltb (solo_vets_est e) v = true
      /\ PrimFloat.ltb (v - solo_vets_est e) 0 = false
      /\ multi_vets_est e = (v - solo_vets_est e)%float
      /\ PrimFloat.ltb 0 (multi_vets_est e) = true.
Proof.
  apply (clamp_never_fires "Territoires du Nord-Ouest (NT)").
  unfold jurisdictions; cbn; tauto.
Defined.

(* ------------------------------------------------------------------ *)
(** ** What a tab can do to the world *)

Lemma extends_refl (w : world) : extends w w.
Proof.
  repeat split; exists []; now rewrite app_nil_r.
Qed.

Lemma extends_trans (w1 w2 w3 : world) :
  extends w1 w2 -> extends w2 w3 -> extends w1 w3.
Proof.
  intros (Hw & [h Hh] & [l Hl]) (Hw' & [h' Hh'] & [l' Hl']).
  repeat split.
  - congruence.
  - exists (h ++ h')%list. now rewrite Hh', Hh, app_assoc.
  - exists (l ++ l')%list. now rewrite Hl', Hl, app_assoc.
Qed.

Lemma extends_frame (w w' : world) (a : ref) (df : DataFrame) :
  extends w w' ->
  nth_error (heap w) a = Some df -> nth_error (heap w') a = Some df.
Proof.
  intros (_ & [h Hh] & _) H. rewrite Hh, nth_error_app1; [exact H | ].
  apply nth_error_Some. congruence.
Qed.

Lemma extends_screen (w w' : world) (e : element) :
  extends w w' -> In e (screen w) -> In e (screen w').
Proof.
  intros (_ & _ & [l Hl]) H. rewrite Hl. apply in_or_app. now left.
Qed.

Section PureSteps.
Context {A B : Type}.

Lemma pure_ret (a : A) : pure_step (ret a).
Proof. intros w. apply extends_refl. Qed.

Lemma pure_lift (r : result A) : pure_step (lift r).
Proof. intros w. apply extends_refl. Qed.

Lemma pure_bind (m : M A) (k : A -> M B) :
  pure_step m -> (forall a, pure_step (k a)) -> pure_step (bind m k).
Proof.
  intros Hm Hk w. unfold bind. specialize (Hm w).
  destruct (m w) as [[a | e] w']; cbn [snd] in *.
  - eapply extends_trans; [exact Hm | apply Hk].
  - exact Hm.
Qed.
End PureSteps.

Lemma pure_alloc (df : DataFrame) : pure_step (alloc df).
Proof.
  intros w. repeat split; cbn.
  - now exists [df].
  - exists []. now rewrite app_nil_r.
Qed.

Lemma pure_deref (r : ref) : pure_step (deref r).
Proof.
  intros w. unfold deref. destruct (nth_error (heap w) r); apply extends_refl.
Qed.

Lemma pure_emit (e : element) : pure_step (emit e).
Proof.
  intros w. repeat split; cbn.
  - exists []. now rewrite app_nil_r.
  - now exists [e].
Qed.

Lemma pure_selectbox (options : list string) (i : nat) :
  pure_step (st_selectbox options i).
Proof.
  intros w. unfold st_selectbox.
  destruct (nth_error options i); [ | apply extends_refl].
  destruct (juris_sel (widgets w)); apply extends_refl.
Qed.

Lemma pure_slider (lo hi value step : Z) : pure_step (st_slider lo hi value step).
Proof. intros w. apply extends_refl. Qed.

Create HintDb pure discriminated.
#[local] Hint Resolve pure_ret pure_lift pure_alloc pure_deref pure_emit
  pure_selectbox pure_slider : pure.

(** Splits a sequence of calls into its calls. *)
Ltac pure_steps :=
  repeat first [ solve [auto with pure] | apply pure_bind; [ | intro ] ].

Lemma pure_getitem r name : pure_step (df_getitem r name).
Proof. unfold df_getitem. pure_steps. Qed.

Lemma pure_sort_values r by_ : pure_step (df_sort_values r by_).
Proof. unfold df_sort_values. pure_steps. Qed.

Lemma pure_where_eq r name v : pure_step (df_where_eq r name v).
Proof. unfold df_where_eq. pure_steps. Qed.

Lemma pure_iloc0 r : pure_step (df_iloc0 r).
Proof. unfold df_iloc0. pure_steps. Qed.

Lemma pure_loc_first r name v col : pure_step (df_loc_first r name v col).
Proof. unfold df_loc_first. pure_steps. Qed.

Lemma pure_static call : pure_step (st_static call).
Proof. apply pure_emit. Qed.

Lemma pure_metric label value : pure_step (st_metric label value).
Proof. apply pure_emit. Qed.

Lemma pure_dataframe r : pure_step (st_dataframe r).
Proof. unfold st_dataframe. pure_steps. Qed.

#[local] Hint Resolve pure_getitem pure_sort_values pure_where_eq pure_iloc0
  pure_loc_first pure_static pure_metric pure_dataframe : pure.

Lemma pure_bar_chart r x y title : pure_step (px_bar_chart r x y title).
Proof. unfold px_bar_chart. pure_steps. Qed.

Lemma pure_highlight qc practice share : pure_step (highlight qc practice share).
Proof.
  unfold highlight. pure_steps.
  match goal with c : cell |- _ => destruct c end; auto with pure.
Qed.

#[local] Hint Resolve pure_bar_chart pure_highlight : pure.

Lemma pure_tab_ca r : pure_step (tab_ca r).
Proof. unfold tab_ca. pure_steps. Qed.

Lemma pure_tab_qc r : pure_step (tab_qc r).
Proof. unfold tab_qc. pure_steps. Qed.

Lemma pure_tab_scen r : pure_step (tab_scen r).
Proof. unfold tab_scen. pure_steps. Qed.

Lemma pure_tab_sources : pure_step tab_sources.
Proof. unfold tab_sources. pure_steps. Qed.

(** Assigning a column is not such a step: it replaces the frame behind the
    reference it is given. *)
Example setitem_mutates :
  let w := snd (pd_DataFrame [[("a", CInt 1)]] (fresh no_session)) in
  nth_error (heap w) 0 <> nth_error (heap (snd (df_setitem 0%nat "a" [CInt 2] w))) 0.
Proof. vm_compute. discriminate. Qed.

(* ------------------------------------------------------------------ *)
(** ** Renders *)

Lemma metrics_eqb_eq a b : metrics_eqb a b = true -> a = b.
Proof.
  revert b. induction a as [ | [l v] a IH]; intros [ | [l' v'] b]; cbn;
    try discriminate; trivial.
  rewrite !andb_true_iff, !String.eqb_eq. intros [[-> ->] H].
  now rewrite (IH b H).
Qed.

Lemma setup_run (s : session) :
  setup (fresh s) = (Ok (2%nat, 3%nat), after_setup s).
Proof. reflexivity. Qed.

Lemma after_setup_widgets (s : session) : widgets (after_setup s) = s.
Proof. reflexivity. Qed.

(** After the module-level code, [df_ca] and [qc_practice_main] are the
    frames behind references 2 and 3. *)
Lemma after_setup_frames (s : session) :
  option_map Ok (nth_error (heap (after_setup s)) 2) = Some df_ca
  /\ option_map Ok (nth_error (heap (after_setup s)) 3) = Some qc_practice_main.
Proof. split; vm_compute; reflexivity. Qed.

Lemma render_tabs (s : session) :
  render s = tabs (2%nat, 3%nat) (after_setup s).
Proof.
  unfold render, script, bind. now rewrite setup_run.
Qed.

Lemma pure_tabs frames : pure_step (tabs frames).
Proof.
  unfold tabs.
  pose proof pure_tab_ca. pose proof pure_tab_qc.
  pose proof pure_tab_scen. pose proof pure_tab_sources.
  pure_steps.
Qed.

(** What follows a step only extends the world it leaves. *)
Lemma bind_extends {A B} (m : M A) (k : A -> M B) (w : world) :
  (forall a, pure_step (k a)) -> extends (snd (m w)) (snd (bind m k w)).
Proof.
  intros Hk. unfold bind. destruct (m w) as [[a | e] w']; cbn [snd].
  - apply Hk.
  - apply extends_refl.
Qed.

(** C6.  Whatever the session, the page shows the total tax revenue as
    1 828.6: the federal, provincial and municipal components, 873.1, 797.3
    and 158.2, add up to 1828.6 and their float sum prints as such. *)
Theorem tax_total_displayed :
  (forall s, In tax_metric (screen (snd (render s))))
  /\ tax_metric
     = Metric "Recettes fiscales totales (M$ CAD)"
         (fmt_amount (CAN_TAX_FED_MCAD + CAN_TAX_PROV_MCAD + CAN_TAX_MUNI_MCAD)%float)
  /\ F64.round_scaled 1 CAN_TAX_FED_MCAD = Some 8731
  /\ F64.round_scaled 1 CAN_TAX_PROV_MCAD = Some 7973
  /\ F64.round_scaled 1 CAN_TAX_MUNI_MCAD = Some 1582
  /\ 8731 + 7973 + 1582 = 18286
  /\ F64.round_scaled 1 (CAN_TAX_FED_MCAD + CAN_TAX_PROV_MCAD + CAN_TAX_MUNI_MCAD)%float
     = Some 18286.
Proof.
  split; [ | repeat split; vm_compute; reflexivity].
  intros s. rewrite render_tabs. unfold tabs.
  eapply extends_screen.
  - apply bind_extends. intros _.
    pose proof pure_tab_qc. pose proof pure_tab_scen. pose proof pure_tab_sources.
    pure_steps.
  - vm_compute. repeat (try (left; reflexivity); right).
Qed.

(** The float sum itself is one unit in the last place above the float
    1828.6; only the printed value is 1828.6. *)
Example tax_sum_float :
  (CAN_TAX_FED_MCAD + CAN_TAX_PROV_MCAD + CAN_TAX_MUNI_MCAD)%float
  = 1828.6000000000001%float
  /\ PrimFloat.eqb (CAN_TAX_FED_MCAD + CAN_TAX_PROV_MCAD + CAN_TAX_MUNI_MCAD) 1828.6 = false.
Proof. split; vm_compute; reflexivity. Qed.


(** A render does not write to the session. *)
Lemma render_keeps_session (s : session) : widgets (snd (render s)) = s.
Proof.
  rewrite render_tabs.
  pose proof (pure_tabs (2%nat, 3%nat) (after_setup s)) as (H & _).
  rewrite H. apply after_setup_widgets.
Qed.

(** *** A render in the world earlier renders have left *)

Lemma replace_nth_app {A} (l1 l2 : list A) (i : nat) (v : A) :
  replace_nth (List.length l1 + i)%nat v (l1 ++ l2) = (l1 ++ replace_nth i v l2)%list.
Proof. induction l1 as [ | a l1 IH]; cbn; [reflexivity | now rewrite IH]. Qed.

Lemma nth_error_shift {A} (l1 l2 : list A) (i : nat) :
  nth_error (l1 ++ l2) (List.length l1 + i)%nat = nth_error l2 i.
Proof. induction l1 as [ | a l1 IH]; cbn; [reflexivity | exact IH]. Qed.

Section Rerun.
Variables (h : list DataFrame) (pg : list element).

Lemma sim_ret {A} (a : A) : sim h pg eq (ret a) (ret a).
Proof. intros w0 w H. now split. Qed.

Lemma sim_ret_shift (r0 : ref) :
  sim h pg (shift h) (ret r0) (ret (List.length h + r0)%nat).
Proof. intros w0 w H. now split. Qed.

Lemma sim_lift {A} (r : result A) : sim h pg eq (lift r) (lift r).
Proof. intros w0 w H. unfold lift. destruct r; now split. Qed.

Lemma sim_bind {A B} (R : A -> A -> Prop) (R' : B -> B -> Prop)
    (m0 m : M A) (k0 k : A -> M B) :
  sim h pg R m0 m ->
  (forall a0 a, R a0 a -> sim h pg R' (k0 a0) (k a)) ->
  sim h pg R' (bind m0 k0) (bind m k).
Proof.
  intros Hm Hk w0 w Hs. unfold bind. specialize (Hm w0 w Hs).
  destruct (m0 w0) as [[a0 | e0] w0'], (m w) as [[a | e] w']; try contradiction.
  - destruct Hm as [HR Hs']. exact (Hk a0 a HR w0' w' Hs').
  - exact Hm.
Qed.

Lemma sim_alloc (df : DataFrame) : sim h pg (shift h) (alloc df) (alloc df).
Proof.
  intros w0 w (Hw & Hh & Hs). unfold alloc, shift, shifted. cbn [widgets heap screen].
  rewrite Hh, length_app, <- app_assoc. now repeat split.
Qed.

Lemma sim_deref (r0 : ref) : sim h pg eq (deref r0) (deref (List.length h + r0)%nat).
Proof.
  intros w0 w Hs. pose proof Hs as (Hw & Hh & _). unfold deref.
  rewrite Hh, nth_error_shift.
  destruct (nth_error (heap w0) r0); now split.
Qed.

Lemma sim_store (r0 : ref) (df : DataFrame) :
  sim h pg eq (store r0 df) (store (List.length h + r0)%nat df).
Proof.
  intros w0 w (Hw & Hh & Hs). unfold store, shifted. cbn [widgets heap screen].
  rewrite Hh, replace_nth_app. now repeat split.
Qed.

Lemma sim_emit (e : element) : sim h pg eq (emit e) (emit e).
Proof.
  intros w0 w (Hw & Hh & Hs). unfold emit, shifted. cbn [widgets heap screen].
  rewrite Hs, <- app_assoc. now repeat split.
Qed.

Lemma sim_selectbox (options : list string) (i : nat) :
  sim h pg eq (st_selectbox options i) (st_selectbox options i).
Proof.
  intros w0 w Hs. pose proof Hs as (Hw & _). unfold st_selectbox. rewrite Hw.
  destruct (nth_error options i); [ | now split].
  destruct (juris_sel (widgets w0)); now split.
Qed.

Lemma sim_slider (lo hi value step : Z) :
  sim h pg eq (st_slider lo hi value step) (st_slider lo hi value step).
Proof.
  intros w0 w Hs. pose proof Hs as (Hw & _). unfold st_slider. rewrite Hw. now split.
Qed.

Create HintDb sim discriminated.
#[local] Hint Resolve sim_ret sim_ret_shift sim_lift sim_alloc sim_deref sim_store
  sim_emit sim_selectbox sim_slider : sim.

(** Splits two runs of the same calls into their calls; a reference bound on
    one side is the shifted reference on the other. *)
Ltac sim_steps :=
  first
    [ solve [auto with sim]
    | eapply sim_bind;
      [ sim_steps
      | let a0 := fresh "a" in
        let a := fresh "a" in
        let H := fresh "H" in
        intros a0 a H; try red in H; subst; sim_steps ] ].

Lemma sim_pd_DataFrame ds : sim h pg (shift h) (pd_DataFrame ds) (pd_DataFrame ds).
Proof. apply sim_alloc. Qed.

Lemma sim_merge l0 r0 key :
  sim h pg (shift h) (df_merge l0 r0 key)
    (df_merge (List.length h + l0)%nat (List.length h + r0)%nat key).
Proof. unfold df_merge. sim_steps. Qed.

Lemma sim_getitem r0 name :
  sim h pg eq (df_getitem r0 name) (df_getitem (List.length h + r0)%nat name).
Proof. unfold df_getitem. sim_steps. Qed.

Lemma sim_setitem r0 name values :
  sim h pg eq (df_setitem r0 name values) (df_setitem (List.length h + r0)%nat name values).
Proof. unfold df_setitem. sim_steps. Qed.

Lemma sim_sort_values r0 by_ :
  sim h pg (shift h) (df_sort_values r0 by_) (df_sort_values (List.length h + r0)%nat by_).
Proof. unfold df_sort_values. sim_steps. Qed.

Lemma sim_where_eq r0 name v :
  sim h pg (shift h) (df_where_eq r0 name v) (df_where_eq (List.length h + r0)%nat name v).
Proof. unfold df_where_eq. sim_steps. Qed.

Lemma sim_iloc0 r0 : sim h pg eq (df_iloc0 r0) (df_iloc0 (List.length h + r0)%nat).
Proof. unfold df_iloc0. sim_steps. Qed.

Lemma sim_loc_first r0 name v col :
  sim h pg eq (df_loc_first r0 name v col) (df_loc_first (List.length h + r0)%nat name v col).
Proof. unfold df_loc_first. sim_steps. Qed.

Lemma sim_static call : sim h pg eq (st_static call) (st_static call).
Proof. apply sim_emit. Qed.

Lemma sim_metric label value : sim h pg eq (st_metric label value) (st_metric label value).
Proof. apply sim_emit. Qed.

Lemma sim_dataframe r0 : sim h pg eq (st_dataframe r0) (st_dataframe (List.length h + r0)%nat).
Proof. unfold st_dataframe. sim_steps. Qed.

#[local] Hint Resolve sim_pd_DataFrame sim_merge sim_getitem sim_setitem sim_sort_values
  sim_where_eq sim_iloc0 sim_loc_first sim_static sim_metric sim_dataframe : sim.

Lemma sim_bar_chart r0 x y title :
  sim h pg eq (px_bar_chart r0 x y title) (px_bar_chart (List.length h + r0)%nat x y title).
Proof. unfold px_bar_chart. sim_steps. Qed.

Lemma sim_highlight qc practice share :
  sim h pg eq (highlight qc practice share) (highlight (List.length h + qc)%nat practice share).
Proof.
  unfold highlight. eapply sim_bind; [sim_steps | ].
  intros c0 c ->. destruct c; auto with sim.
Qed.

#[local] Hint Resolve sim_bar_chart sim_highlight : sim.

Lemma sim_build_df_ca : sim h pg (shift h) build_df_ca build_df_ca.
Proof. unfold build_df_ca. sim_steps. Qed.

Lemma sim_build_qc : sim h pg (shift h) build_qc_practice_main build_qc_practice_main.
Proof. unfold build_qc_practice_main. sim_steps. Qed.

Lemma sim_tab_ca r0 : sim h pg eq (tab_ca r0) (tab_ca (List.length h + r0)%nat).
Proof. unfold tab_ca. sim_steps. Qed.

Lemma sim_tab_qc r0 : sim h pg eq (tab_qc r0) (tab_qc (List.length h + r0)%nat).
Proof. unfold tab_qc. sim_steps. Qed.

Lemma sim_tab_scen r0 : sim h pg eq (tab_scen r0) (tab_scen (List.length h + r0)%nat).
Proof. unfold tab_scen. lazy zeta. sim_steps. Qed.

Lemma sim_tab_sources : sim h pg eq tab_sources tab_sources.
Proof. unfold tab_sources. sim_steps. Qed.

#[local] Hint Resolve sim_build_df_ca sim_build_qc sim_tab_ca sim_tab_qc sim_tab_scen
  sim_tab_sources : sim.

(** The whole script goes the same way in both worlds. *)
Lemma sim_script : sim h pg eq script script.
Proof.
  unfold script, setup.
  eapply sim_bind with
    (R := fun p0 p => p = ((List.length h + fst p0)%nat, (List.length h + snd p0)%nat)).
  - eapply sim_bind; [sim_steps | intros _ _ _].
    eapply sim_bind; [sim_steps | intros _ _ _].
    eapply sim_bind; [sim_steps | intros a0 a Ha; red in Ha; subst a].
    eapply sim_bind; [sim_steps | intros b0 b Hb; red in Hb; subst b].
    eapply sim_bind; [sim_steps | intros _ _ _].
    intros w0 w Hs. now split.
  - intros [a0 b0] p ->. unfold tabs. cbn [fst snd]. sim_steps.
Qed.
End Rerun.

(** A run of the script in any world does what a first render with the same
    session does: it returns the same result, appends the same page to the
    page it finds, puts the same frames behind the frames it finds, and
    leaves the session alone. *)
Lemma script_rerun (w : world) :
  fst (script w) = fst (render (widgets w))
  /\ widgets (snd (script w)) = widgets w
  /\ heap (snd (script w)) = (heap w ++ heap (snd (render (widgets w))))%list
  /\ screen (snd (script w)) = (screen w ++ screen (snd (render (widgets w))))%list.
Proof.
  assert (Hs : shifted (heap w) (screen w) (fresh (widgets w)) w).
  { unfold shifted, fresh. cbn [widgets heap screen]. rewrite !app_nil_r.
    split; [reflexivity | split; reflexivity]. }
  pose proof (sim_script (heap w) (screen w) _ _ Hs) as H. clear Hs.
  pose proof (render_keeps_session (widgets w)) as Hk.
  unfold render in *. revert H Hk.
  generalize (script (fresh (widgets w))) (script w).
  intros [[[] | e0] w0'] [[[] | e] w'] H Hk; try contradiction; cbn [fst snd] in *.
  - destruct H as (_ & Hw & Hh & Hp).
    split; [reflexivity | split; [exact (eq_trans Hw Hk) | split; assumption]].
  - destruct H as (He & Hw & Hh & Hp).
    split; [exact (f_equal _ (eq_sym He)) | split; [exact (eq_trans Hw Hk) | split; assumption]].
Qed.

(** A script that reads a reference it has not created does depend on what
    earlier runs have left: the rerun property is one of this script. *)
Example stale_reference_differs :
  fst (st_dataframe 0%nat (fresh no_session)) = Raise ValueError
  /\ fst (st_dataframe 0%nat (snd (render no_session))) = Ok tt.
Proof. split; vm_compute; reflexivity. Qed.

Lemma metrics_of_app (a b : list element) :
  metrics_of (a ++ b) = (metrics_of a ++ metrics_of b)%list.
Proof. unfold metrics_of. apply flat_map_app. Qed.

(** The scenario metrics of a page are those of its last part, when that
    part holds them. *)
Lemma scenario_metrics_app (a b : list element) :
  (3 <= List.length (metrics_of b))%nat ->
  scenario_metrics (a ++ b) = scenario_metrics b.
Proof.
  intros H. unfold scenario_metrics. rewrite metrics_of_app, length_app.
  replace (List.length (metrics_of a) + List.length (metrics_of b) - 3)%nat
    with (List.length (metrics_of a) + (List.length (metrics_of b) - 3))%nat by lia.
  rewrite skipn_app, skipn_all2 by lia.
  replace (List.length (metrics_of a) + (List.length (metrics_of b) - 3)
           - List.length (metrics_of a))%nat
    with (List.length (metrics_of b) - 3)%nat by lia.
  reflexivity.
Qed.

(** Every first render over the selector's options and the slider's
    positions succeeds and prints, as its last three metrics, the binary64
    values [f * (p / 100)], the same again, and [v - f * (p / 100)] computed
    from the selected row's figures [v] and [f] and the slider position
    [p]. *)
Lemma scenario_check :
  forallb (fun j => match official j with
    | Ok (v, f) =>
        slider_check (fun p =>
          match fst (render (chosen j p)) with
          | Ok _ =>
              metrics_eqb (scenario_metrics (screen (snd (render (chosen j p)))))
                [ ("Établissements 'solo' (estim.)",
                   Fmt.fixed false 0 (f * (F64.of_int p / 100))%float);
                  ("Vétérinaires 'solo' (estim.)",
                   Fmt.fixed false 0 (f * (F64.of_int p / 100))%float);
                  ("Vétérinaires en structure multi (estim.)",
                   Fmt.fixed false 0 (v - f * (F64.of_int p / 100))%float) ]
              && (3 <=? List.length (metrics_of (screen (snd (render (chosen j p))))))%nat
          | Raise _ => false
          end)
    | Raise _ => false
    end) jurisdictions = true.
Proof. vm_compute. reflexivity. Qed.

(** C8.  A run of the script in the world that any earlier renders have
    left (their frames, their page, the session they ended with) returns what
    a first render with that session returns, writes the same page after the
    page it finds, builds the same frames after the frames it finds and
    leaves the session as it is: a render reads nothing that an earlier
    render wrote, and rendering again gives the same page and frames.  For
    every jurisdiction and slider position, in whatever world, the run
    succeeds and its three scenario metrics print the binary64 values
    [f * (p / 100)], the same again, and [v - f * (p / 100)], where [v] and
    [f] are the figures of the selected row and [p] the slider position.  The
    estimator itself is given by closed expressions of its three inputs,
    for every whole share from 0 to 100. *)
Theorem render_idempotent :
  (forall w : world,
     fst (script w) = fst (render (widgets w))
     /\ widgets (snd (script w)) = widgets w
     /\ heap (snd (script w)) = (heap w ++ heap (snd (render (widgets w))))%list
     /\ screen (snd (script w)) = (screen w ++ screen (snd (render (widgets w))))%list)
  /\ (forall j, In j jurisdictions ->
        exists v f, official j = Ok (v, f) /\
          forall p, In p slider_values ->
          forall w, widgets w = chosen j p ->
            fst (script w) = Ok tt
            /\ scenario_metrics (screen (snd (script w)))
               = [ ("Établissements 'solo' (estim.)",
                    Fmt.fixed false 0 (f * (F64.of_int p / 100))%float);
                   ("Vétérinaires 'solo' (estim.)",
                    Fmt.fixed false 0 (f * (F64.of_int p / 100))%float);
                   ("Vétérinaires en structure multi (estim.)",
                    Fmt.fixed false 0 (v - f * (F64.of_int p / 100))%float) ])
  /\ (forall (vets facs : float) (solo_share : Z),
        0 <= solo_share <= 100 ->
        let s := (facs * (F64.of_int solo_share / 100))%float in
        let e := estimate vets facs solo_share in
        solo_facilities e = s
        /\ solo_vets_est e = s
        /\ (PrimFloat.ltb (vets - s) 0 = true -> multi_vets_est e = 0%float)
        /\ (PrimFloat.ltb (vets - s) 0 = false -> multi_vets_est e = (vets - s)%float)).
Proof.
  split; [exact script_rerun | split; [ | intros vets facs solo_share _; exact (estimate_cases vets facs solo_share)]].
  intros j Hj.
  pose proof scenario_check as Hall.
  rewrite forallb_forall in Hall. specialize (Hall j Hj).
  destruct (official j) as [[v f] | ]; [ | discriminate Hall].
  exists v, f. split; [reflexivity | ].
  intros p Hp w Hw. pose proof (slider_check_sound _ Hall p Hp) as Hb. cbv beta in Hb.
  destruct (script_rerun w) as (Hr & _ & _ & Hs). rewrite Hw in Hr, Hs.
  rewrite Hr, Hs.
  destruct (fst (render (chosen j p))) as [[] | ]; [ | discriminate Hb].
  apply andb_true_iff in Hb as [Hm Hl]. apply Nat.leb_le in Hl.
  split; [reflexivity | ].
  rewrite (scenario_metrics_app _ _ Hl). now apply metrics_eqb_eq.
Qed.

Lemma render_idempotent_witness :
  exists v f, official "Alberta (AB)" = Ok (v, f) /\
    forall p, In p slider_values ->
    forall w, widgets w = chosen "Alberta (AB)" p ->
      fst (script w) = Ok tt
      /\ scenario_metrics (screen (snd (script w)))
         = [ ("Établissements 'solo' (estim.)",
              Fmt.fixed false 0 (f * (F64.of_int p / 100))%float);
             ("Vétérinaires 'solo' (estim.)",
              Fmt.fixed false 0 (f * (F64.of_int p / 100))%float);
             ("Vétérinaires en structure multi (estim.)",
              Fmt.fixed false 0 (v - f * (F64.of_int p / 100))%float) ].
Proof.
  apply (proj1 (proj2 render_idempotent) "Alberta (AB)").
  unfold jurisdictions; cbn; tauto.
Defined.

(* ------------------------------------------------------------------ *)
(** ** Frames are shared, not changed *)

(** A sort returns a reference that did not exist before the call. *)
Lemma sort_values_is_new (r : ref) (by_ : string) (w : world) (r' : ref) :
  fst (df_sort_values r by_ w) = Ok r' ->
  r' = List.length (heap w) /\ nth_error (heap w) r' = None.
Proof.
  unfold df_sort_values, bind, deref, lift, alloc.
  destruct (nth_error (heap w) r) as [df | ]; [ | discriminate].
  destruct (sorted_values df by_); [ | discriminate].
  cbn. intros [= <-]. split; [reflexivity | ].
  apply nth_error_None. lia.
Qed.

Lemma render_keeps_frames (s : session) (a : ref) (df : DataFrame) :
  nth_error (heap (after_setup s)) a = Some df ->
  nth_error (heap (snd (render s))) a = Some df.
Proof.
  intros H. rewrite render_tabs.
  exact (extends_frame _ _ _ _ (pure_tabs (2%nat, 3%nat) (after_setup s)) H).
Qed.

Lemma after_setup_df_ca (s : session) :
  exists d, df_ca = Ok d /\ nth_error (heap (after_setup s)) 2 = Some d.
Proof. eexists. split; vm_compute; reflexivity. Qed.

Lemma after_setup_qc (s : session) :
  exists d, qc_practice_main = Ok d /\ nth_error (heap (after_setup s)) 3 = Some d.
Proof. eexists. split; vm_compute; reflexivity. Qed.

(** C9.  Whatever the world a tab is rendered in, every frame of that world
    is behind the same reference, with the same rows in the same order,
    afterwards (the sorts allocate new frames); in a render, [df_ca] and
    [qc_practice_main] are still the frames the module-level code built when
    the last tab is done. *)
Theorem tabs_keep_frames :
  (forall (r : ref) (w : world) (a : ref) (df : DataFrame),
     nth_error (heap w) a = Some df ->
     nth_error (heap (snd (tab_ca r w))) a = Some df
     /\ nth_error (heap (snd (tab_qc r w))) a = Some df
     /\ nth_error (heap (snd (tab_scen r w))) a = Some df
     /\ nth_error (heap (snd (tab_sources w))) a = Some df)
  /\ (forall s, exists d q,
        df_ca = Ok d /\ qc_practice_main = Ok q
        /\ nth_error (heap (snd (render s))) 2 = Some d
        /\ nth_error (heap (snd (render s))) 3 = Some q).
Proof.
  split.
  - intros r w a df H.
    split; [ | split; [ | split]].
    + exact (extends_frame _ _ _ _ (pure_tab_ca r w) H).
    + exact (extends_frame _ _ _ _ (pure_tab_qc r w) H).
    + exact (extends_frame _ _ _ _ (pure_tab_scen r w) H).
    + exact (extends_frame _ _ _ _ (pure_tab_sources w) H).
  - intros s.
    destruct (after_setup_df_ca s) as (d & Hd & Ed).
    destruct (after_setup_qc s) as (q & Hq & Eq).
    exists d, q. repeat split; trivial; now apply render_keeps_frames.
Qed.

Lemma tabs_keep_frames_witness :
  exists d, df_ca = Ok d
    /\ nth_error (heap (snd (tab_ca 2%nat (after_setup no_session)))) 2 = Some d
    /\ nth_error (heap (snd (tab_qc 2%nat (after_setup no_session)))) 2 = Some d
    /\ nth_error (heap (snd (tab_scen 2%nat (after_setup no_session)))) 2 = Some d
    /\ nth_error (heap (snd (tab_sources (after_setup no_session)))) 2 = Some d.
Proof.
  destruct (after_setup_df_ca no_session) as (d & Hd & Ed).
  exists d. split; [exact Hd | ].
  exact (proj1 tabs_keep_frames 2%nat (after_setup no_session) 2%nat d Ed).
Defined.

(* ================================================================== *)
(** * Further properties of the script *)

(** ** A render never fails *)

Lemma bind_ok {A B} (m : M A) (k : A -> M B) (w w' : world) (a : A) :
  m w = (Ok a, w') -> bind m k w = k a w'.
Proof. unfold bind. now intros ->. Qed.

Lemma seq_assoc {A B C} (m1 : M A) (m2 : M B) (k : B -> M C) (w : world) :
  bind (bind m1 (fun _ => m2)) k w = bind m1 (fun _ => bind m2 k) w.
Proof. unfold bind. destruct (m1 w) as [[a | e] w']; reflexivity. Qed.

Lemma tab_scen_split (df : ref) (w : world) :
  tab_scen df w
  = bind (scen_options df)
      (fun x => bind (st_selectbox (fst x) (snd x)) (scen_body df)) w.
Proof.
  unfold tab_scen, scen_options, scen_body, bind, ret.
  repeat match goal with
         | |- context [match ?m w with _ => _ end] =>
             destruct (m w) as [[? | ?] ?]; try reflexivity
         | |- context [match ?m ?v with _ => _ end] =>
             is_var v; destruct (m v) as [[? | ?] ?]; try reflexivity
         end.
Qed.

Lemma before_scen_run (s : session) :
  (tab_ca 2%nat ;; tab_qc 3%nat) (after_setup s) = (Ok tt, before_scen s).
Proof. vm_compute. reflexivity. Qed.

Lemma scen_options_run (s : session) :
  scen_options 2%nat (before_scen s) = (Ok (jurisdictions, 1%nat), at_selector s).
Proof. vm_compute. reflexivity. Qed.

Lemma at_selector_widgets (s : session) : widgets (at_selector s) = s.
Proof. vm_compute. reflexivity. Qed.

(** The selector returns the picked option and leaves the world alone. *)
Lemma selectbox_run (s : session) :
  st_selectbox jurisdictions 1 (at_selector s) = (Ok (picked s), at_selector s).
Proof.
  unfold st_selectbox, picked.
  change (nth_error jurisdictions 1) with (Some "Québec (QC)").
  rewrite (at_selector_widgets s).
  destruct (juris_sel s) as [v | ]; reflexivity.
Qed.


Lemma bind_cong {A B} (m m' : M A) (k : A -> M B) (w : world) :
  m w = m' w -> bind m k w = bind m' k w.
Proof. unfold bind. now intros ->. Qed.

Lemma bind_assoc {A B C} (m : M A) (k : A -> M B) (k' : B -> M C) (w : world) :
  bind (bind m k) k' w = bind m (fun a => bind (k a) k') w.
Proof. unfold bind. destruct (m w) as [[a | e] w']; reflexivity. Qed.

(** A render is the rest of the scenario tab and the sources tab, run on
    the picked jurisdiction. *)
Lemma render_from_selector (s : session) :
  render s = bind (scen_body 2%nat (picked s)) (fun _ => tab_sources) (at_selector s).
Proof.
  rewrite render_tabs. unfold tabs. cbn [fst snd].
  rewrite <- (seq_assoc (tab_ca 2%nat) (tab_qc 3%nat)
                (fun _ => bind (tab_scen 2%nat) (fun _ => tab_sources)) (after_setup s)).
  rewrite (bind_ok _ _ _ _ _ (before_scen_run s)).
  rewrite (bind_cong _ _ _ _ (tab_scen_split 2%nat (before_scen s))).
  rewrite (bind_assoc (scen_options 2%nat) _ (fun _ => tab_sources) (before_scen s)).
  rewrite (bind_ok _ _ _ _ _ (scen_options_run s)).
  cbn [fst snd].
  rewrite (bind_assoc (st_selectbox jurisdictions 1) _ (fun _ => tab_sources) (at_selector s)).
  now rewrite (bind_ok _ _ _ _ _ (selectbox_run s)).
Qed.

Lemma picked_option (s : session) : In (picked s) jurisdictions.
Proof.
  unfold picked. destruct (juris_sel s) as [v | ].
  - destruct (existsb (String.eqb v) jurisdictions) eqn:E.
    + apply existsb_exists in E as (x & Hx & Hv).
      apply String.eqb_eq in Hv. now subst x.
    + unfold jurisdictions; cbn; tauto.
  - unfold jurisdictions; cbn; tauto.
Qed.


(** From the selector on, a render succeeds whatever the option and the
    slider position. *)
Lemma scen_body_ok (j : string) (s : session) :
  In j jurisdictions ->
  fst (bind (scen_body 2%nat j) (fun _ => tab_sources) (at_selector s)) = Ok tt.
Proof.
  intros Hj. unfold jurisdictions in Hj. cbn [In map fst vets_active_2023_24] in Hj.
  destruct s as [js [p | ]];
    repeat (destruct Hj as [Hj | Hj]; [subst j; vm_compute; reflexivity | ]);
    contradiction.
Qed.

(** Whatever the session holds (a jurisdiction that is no option, a slider
    value outside the slider's range, which the slider replaces by 20), a
    render raises no exception. *)
Theorem render_total (s : session) : fst (render s) = Ok tt.
Proof.
  rewrite render_from_selector. apply scen_body_ok, picked_option.
Qed.

(** Charts and tables do not depend on the session: every render shows the
    ones of the first render. *)
Theorem charts_and_tables_fixed (s : session) :
  filter is_chart_or_table (screen (snd (render s)))
  = filter is_chart_or_table (screen (snd (render no_session)))
  /\ List.length (filter is_chart_or_table (screen (snd (render s)))) = 6%nat.
Proof.
  cut (filter is_chart_or_table (screen (snd (render s)))
       = filter is_chart_or_table (screen (snd (render no_session)))).
  { intros ->. split; [reflexivity | vm_compute; reflexivity]. }
  rewrite (render_from_selector s).
  pose proof (picked_option s) as Hj. revert Hj. generalize (picked s) as j.
  intros j Hj. unfold jurisdictions in Hj. cbn [In map fst vets_active_2023_24] in Hj.
  destruct s as [js [p | ]];
    repeat (destruct Hj as [Hj | Hj]; [subst j; vm_compute; reflexivity | ]);
    contradiction.
Qed.

(** The selector reads the stored jurisdiction, and the slider the stored
    position when it is one the slider can take. *)
Example widgets_read_session :
  fst (st_selectbox ["a"; "b"] 0 (fresh (chosen "b" 20))) = Ok "b"
  /\ fst (st_selectbox ["a"; "b"] 0 (fresh (chosen "c" 20))) = Ok "a"
  /\ fst (st_slider 0 80 20 5 (fresh (chosen "b" 35))) = Ok 35
  /\ fst (st_slider 0 80 20 5 (fresh (chosen "b" 85))) = Ok 20
  /\ fst (st_slider 0 80 20 5 (fresh no_session)) = Ok 20.
Proof. repeat split. Qed.

(* ------------------------------------------------------------------ *)
(** ** Sorting for the charts and the tables *)











(** Rows of equal key keep the order they come in; a missing value goes
    last. *)
Example sort_desc_ties :
  map fst (sort_desc 0 [(0, [CInt 1]); (1, [CInt 2]); (2, [CInt 1]); (3, [CInt 2])])
  = [1; 3; 0; 2]
  /\ map fst (sort_desc 0 [(0, [CFloat PrimFloat.nan]); (1, [CFloat 2]); (2, [CFloat 3])])
     = [2; 1; 0].
Proof. split; reflexivity. Qed.



(* ------------------------------------------------------------------ *)
(** ** Selecting a row *)

(** [l.index(x)] is the first position of [l] that holds [x], and raises
    [ValueError] when there is none. *)
Theorem list_index_spec (x : string) (l : list string) :
  match list_index x l with
  | Ok i => nth_error l i = Some x /\ ~ In x (firstn i l)
  | Raise e => e = ValueError /\ ~ In x l
  end.
Proof.
  induction l as [ | y l IH]; cbn.
  - split; [reflexivity | tauto].
  - destruct (String.eqb_spec y x) as [-> | Hy]; cbn.
    + split; [reflexivity | tauto].
    + destruct (list_index x l) as [i | e]; cbn.
      * destruct IH as [Hn Hf]. split; [exact Hn | ]. intros [H | H]; tauto.
      * destruct IH as [-> Hf]. split; [reflexivity | ]. intros [H | H]; tauto.
Qed.

Lemma loc_first_find (df : DataFrame) (name col : string) (v : cell) :
  match position name (columns df), position col (columns df) with
  | Some i, Some c =>
      match find (fun r => cell_eqb (cell_at i r) v) (rows df) with
      | Some r => loc_first df name v col = Ok (cell_at c r)
      | None => loc_first df name v col = Raise IndexError
      end
  | None, _ => loc_first df name v col = Raise (KeyError name)
  | Some _, None => loc_first df name v col = Raise (KeyError col)
  end.
Proof.
  unfold loc_first, where_eq, getitem, col_pos. cbn [columns rows].
  destruct (position name (columns df)) as [i | ]; [ | reflexivity].
  cbn [rbind columns rows].
  destruct (position col (columns df)) as [c | ]; [ | reflexivity].
  cbn [rbind].
  induction (rows df) as [ | r l IH]; cbn; [reflexivity | ].
  destruct (cell_eqb (cell_at i r) v); [reflexivity | exact IH].
Qed.


Lemma find_no_match (j : string) (rs : list (Z * list cell)) :
  (forall r, In r rs -> exists n, cell_at 0 r = CStr n /\ n <> j) ->
  find (fun r => cell_eqb (cell_at 0 r) (CStr j)) rs = None.
Proof.
  induction rs as [ | r rs IH]; intros H; cbn; [reflexivity | ].
  destruct (H r (or_introl eq_refl)) as (n & -> & Hn). cbn [cell_eqb].
  destruct (String.eqb_spec n j); [contradiction | ].
  apply IH. intros x Hx. apply H. now right.
Qed.

Lemma df_ca_shape :
  exists d, df_ca = Ok d
    /\ position col_juris (columns d) = Some 0%nat
    /\ position col_vets (columns d) = Some 1%nat
    /\ map (cell_at 0) (rows d) = map CStr jurisdictions.
Proof.
  eexists. split; [vm_compute; reflexivity | ].
  split; [vm_compute; reflexivity | ].
  split; vm_compute; reflexivity.
Qed.

(** Selecting the row of a jurisdiction that is not in the table raises
    [IndexError]: the filtered frame is empty and has no first row. *)
Theorem official_unknown (j : string) :
  ~ In j jurisdictions -> official j = Raise IndexError.
Proof.
  intros Hj. destruct df_ca_shape as (d & Hd & Hk & Hv & Hn).
  unfold official, lookup. rewrite Hd. cbn [rbind].
  pose proof (loc_first_find d col_juris col_vets (CStr j)) as H.
  rewrite Hk, Hv in H.
  rewrite find_no_match in H; [now rewrite H | ].
  intros r Hr. apply (in_map (cell_at 0)) in Hr. rewrite Hn in Hr.
  apply in_map_iff in Hr as (n & Hc & Hin). exists n. split; [now symmetry | ].
  intros ->. contradiction.
Qed.

Lemma official_unknown_witness : official "Nunavut (NU)" = Raise IndexError.
Proof.
  apply (official_unknown "Nunavut (NU)").
  unfold jurisdictions. cbn. intros H.
  repeat (destruct H as [H | H]; [discriminate H | ]). exact H.
Defined.

(* ------------------------------------------------------------------ *)
(** ** Thousands separators *)

Lemma strip_app (c : ascii) (s t : string) :
  strip c (s ++ t) = (strip c s ++ strip c t)%string.
Proof.
  induction s as [ | a s IH]; cbn; [reflexivity | ].
  destruct (Ascii.eqb a c); cbn; now rewrite IH.
Qed.

Lemma strip_replace (s : string) :
  strip " " (Fmt.replace "," " " s) = strip " " (strip "," s).
Proof.
  induction s as [ | a s IH]; cbn; [reflexivity | ].
  destruct (Ascii.eqb_spec a ","%char) as [-> | Hc]; cbn; [exact IH | ].
  destruct (Ascii.eqb a " "); cbn; now rewrite IH.
Qed.

Lemma strip_filter (c : ascii) (l : list ascii) :
  strip c (string_of_list_ascii l)
  = string_of_list_ascii (filter (fun a => negb (Ascii.eqb a c)) l).
Proof.
  induction l as [ | a l IH]; cbn; [reflexivity | ].
  destruct (Ascii.eqb a c); cbn; now rewrite IH.
Qed.

Lemma group_rev_filter (i : nat) (l : list ascii) :
  filter (fun a => negb (Ascii.eqb a ",")) (Fmt.group_rev i l)
  = filter (fun a => negb (Ascii.eqb a ",")) l.
Proof.
  revert i. induction l as [ | c l IH]; intros i; cbn [Fmt.group_rev]; [reflexivity | ].
  destruct l as [ | c' l]; [reflexivity | ].
  destruct i as [ | [ | [ | i]]]; cbn [filter]; rewrite IH; reflexivity.
Qed.

(** Grouping only inserts commas. *)
Lemma strip_group3 (s : string) : strip "," (Fmt.group3 s) = strip "," s.
Proof.
  unfold Fmt.group3. rewrite strip_filter, filter_rev, group_rev_filter.
  rewrite <- filter_rev, rev_involutive, <- strip_filter.
  now rewrite string_of_list_ascii_of_string.
Qed.

Lemma strip_uint (c : ascii) (d : Decimal.uint) :
  c = ","%char \/ c = " "%char ->
  strip c (NilEmpty.string_of_uint d) = NilEmpty.string_of_uint d.
Proof.
  intros Hc. induction d; cbn; trivial; destruct Hc as [-> | ->]; cbn; now rewrite IHd.
Qed.

Lemma strip_digits (c : ascii) (n : Z) :
  c = ","%char \/ c = " "%char -> strip c (Fmt.digits n) = Fmt.digits n.
Proof.
  intros Hc. unfold Fmt.digits. generalize (N.to_uint (Z.to_N n)). intros d.
  destruct d as [ | d | d | d | d | d | d | d | d | d | d];
    [now destruct Hc as [-> | ->] | .. ];
    match goal with
    | |- strip c (NilZero.string_of_uint ?u) = _ => exact (strip_uint c u Hc)
    end.
Qed.

(** The thousands separators leave the digits alone: taking the spaces out
    of [f"{n:,}".replace(",", " ")] gives [str(n)], and for a natural number
    reading that back gives [n]. *)
Theorem fmt_int_digits (n : Z) :
  strip " " (fmt_int n) = Fmt.int_plain n
  /\ strip "," (fmt_int n) = fmt_int n
  /\ (0 <= n -> parse_nat (strip " " (fmt_int n)) = Some n).
Proof.
  assert (H1 : strip " " (fmt_int n) = Fmt.int_plain n).
  { unfold fmt_int, Fmt.int_grouped, Fmt.int_plain.
    rewrite strip_replace, !strip_app, strip_group3.
    rewrite !strip_digits by tauto. now destruct (n <? 0). }
  split; [exact H1 | split].
  - unfold fmt_int.
    generalize (Fmt.int_grouped n). intros s.
    induction s as [ | a s IH]; cbn; [reflexivity | ].
    destruct (Ascii.eqb_spec a ","%char) as [-> | Ha]; cbn; [now rewrite IH | ].
    destruct (Ascii.eqb_spec a ","%char); [contradiction | now rewrite IH].
  - intros Hn. rewrite H1. unfold Fmt.int_plain, parse_nat.
    destruct (Z.ltb_spec n 0); [lia | ]. cbn [append].
    unfold Fmt.digits. rewrite NilZero.usu.
    + cbn [option_map]. rewrite DecimalN.Unsigned.of_to, Z.abs_eq, Z2N.id by lia.
      reflexivity.
    + destruct (Z.to_N (Z.abs n)) as [ | p]; [discriminate | ].
      apply DecimalPos.Unsigned.to_uint_nonnil.
Qed.

Lemma fmt_int_digits_witness :
  parse_nat (strip " " (fmt_int CAN_REGISTERED_VETS_2024)) = Some CAN_REGISTERED_VETS_2024.
Proof.
  apply (proj2 (proj2 (fmt_int_digits CAN_REGISTERED_VETS_2024))).
  unfold CAN_REGISTERED_VETS_2024. lia.
Defined.

(* ------------------------------------------------------------------ *)
(** ** Counts survive the conversion to [float] and back *)

(** [int(float(n)) == n] for every integer of magnitude below 2^53: the
    counts the scenario tab shows are the integers of the table. *)
Theorem int_of_float_of_int (n : Z) :
  - 2 ^ 53 < n < 2 ^ 53 -> int_of_float (F64.of_int n) = Ok n.
Proof.
  intros Hn. unfold int_of_float, F64.exact. rewrite (Prim2SF_of_int n Hn).
  destruct n as [ | m | m]; [reflexivity | | ]; cbn [binary_normalize].
  - destruct (binary_round_exact false m) as (mz & ez & -> & He & Hz & _); [lia | ].
    cbn [cond_Zopp]. f_equal.
    destruct (Z.leb_spec 0 ez).
    + replace ez with 0 in * by lia. cbn in *. lia.
    + rewrite Hz, Z.quot_mul; [reflexivity | ]. apply Z.pow_nonzero; lia.
  - destruct (binary_round_exact true m) as (mz & ez & -> & He & Hz & _); [lia | ].
    cbn [cond_Zopp]. f_equal.
    destruct (Z.leb_spec 0 ez).
    + replace ez with 0 in * by lia. cbn in *. lia.
    + change (Z.neg mz) with (- Z.pos mz).
      rewrite Z.quot_opp_l by (apply Z.pow_nonzero; lia).
      rewrite Hz, Z.quot_mul; [reflexivity | ]. apply Z.pow_nonzero; lia.
Qed.

Lemma int_of_float_of_int_witness : int_of_float (F64.of_int 3212) = Ok 3212.
Proof. apply (int_of_float_of_int 3212). lia. Defined.

(* ------------------------------------------------------------------ *)
(** ** The estimator at the ends of the share range *)

Lemma of_int_mul_zero (f : Z) :
  0 <= f < 2 ^ 53 -> (F64.of_int f * 0)%float = 0%float.
Proof.
  intros Hf. apply Prim2SF_inj. rewrite FloatAxioms.mul_spec.
  change (Prim2SF 0%float) with (S754_zero false).
  rewrite (Prim2SF_of_int f) by lia.
  destruct f as [ | m | m]; [reflexivity | | lia].
  cbn [binary_normalize].
  destruct (binary_round_exact false m) as (mz & ez & -> & _); [lia | reflexivity].
Qed.

(** At 0 % no facility is solo and the multi-structure estimate is all the
    veterinarians ([active_vets] itself, or 0 when it is negative); at 100 %
    every facility is solo and the estimate is what is left of the
    veterinarians after one per facility, or 0 when that is negative.  Both
    hold for every float [vets]; the second for every float [facs], the
    first for every count [facs] below 2^53. *)
Theorem estimate_at_ends (vets : float) :
  (forall f, 0 <= f < 2 ^ 53 ->
     solo_facilities (estimate vets (F64.of_int f) 0) = 0%float
     /\ solo_vets_est (estimate vets (F64.of_int f) 0) = 0%float
     /\ (PrimFloat.ltb vets 0 = true ->
         multi_vets_est (estimate vets (F64.of_int f) 0) = 0%float)
     /\ (PrimFloat.ltb vets 0 = false ->
         multi_vets_est (estimate vets (F64.of_int f) 0) = vets))
  /\ (forall facs,
        solo_facilities (estimate vets facs 100) = facs
        /\ solo_vets_est (estimate vets facs 100) = facs
        /\ multi_facilities (estimate vets facs 100) = (facs - facs)%float
        /\ (PrimFloat.ltb (vets - facs) 0 = true ->
            multi_vets_est (estimate vets facs 100) = 0%float)
        /\ (PrimFloat.ltb (vets - facs) 0 = false ->
            multi_vets_est (estimate vets facs 100) = (vets - facs)%float)).
Proof.
  split.
  - intros f Hf. unfold estimate.
    cbn [solo_facilities solo_vets_est multi_vets_est].
    change (F64.of_int 0 / 100)%float with 0%float.
    rewrite (of_int_mul_zero f Hf). change (0 * 1)%float with 0%float.
    rewrite sub_zero_r.
    split; [reflexivity | split; [reflexivity | apply max0_cases]].
  - intros facs. unfold estimate.
    cbn [solo_facilities solo_vets_est multi_facilities multi_vets_est].
    change (F64.of_int 100 / 100)%float with 1%float.
    rewrite !mul_one_r.
    split; [reflexivity | split; [reflexivity | split; [reflexivity | apply max0_cases]]].
Qed.

Lemma estimate_at_ends_witness :
  multi_vets_est (estimate (-3) (F64.of_int 942) 0) = 0%float
  /\ multi_vets_est (estimate 3212 (F64.of_int 942) 0) = 3212%float
  /\ multi_vets_est (estimate 4 10 100) = 0%float.
Proof.
  split; [ | split].
  - apply (proj1 (estimate_at_ends (-3)) 942); [lia | vm_compute; reflexivity].
  - apply (proj1 (estimate_at_ends 3212) 942); [lia | vm_compute; reflexivity].
  - apply (proj2 (estimate_at_ends 4) 10%float). vm_compute; reflexivity.
Defined.

Lemma estimate_no_facilities_witness :
  multi_vets_est (estimate 3212 0 20) = 3212%float
  /\ multi_vets_est (estimate (-1) 0 20) = 0%float.
Proof.
  split.
  - apply (estimate_no_facilities 3212 20); [lia | vm_compute; reflexivity].
  - apply (estimate_no_facilities (-1) 20); [lia | vm_compute; reflexivity].
Defined.

(* ------------------------------------------------------------------ *)
(** ** A frame from a dict *)

Lemma union_keys_pair (k1 k2 : string) (n : nat) (acc : list string) :
  existsb (String.eqb k1) acc = true -> existsb (String.eqb k2) acc = true ->
  fold_left (fun acc k => if existsb (String.eqb k) acc then acc else (acc ++ [k])%list)
            (List.concat (List.repeat [k1; k2] n)) acc = acc.
Proof.
  intros H1 H2. induction n as [ | n IH]; cbn; [reflexivity | ].
  now rewrite H1, H2.
Qed.

Lemma records_keys (k1 k2 : string) (d : list (string * Z)) :
  flat_map (map fst) (records k1 k2 d) = List.concat (List.repeat [k1; k2] (List.length d)).
Proof.
  induction d as [ | kv d IH]; cbn; [reflexivity | ]. now rewrite <- IH.
Qed.

(** The frame built from the items of a dict, under two different column
    labels, has these two columns and one row per item, in the order of the
    dict and numbered from 0: the label column holds the keys, the other the
    values. *)
Theorem frame_of_dict (k1 k2 : string) (d : list (string * Z)) :
  k1 <> k2 -> d <> [] ->
  of_dicts (records k1 k2 d)
  = {| columns := [k1; k2];
       rows := number_from 0 (map (fun kv => [CStr (fst kv); CInt (snd kv)]) d) |}.
Proof.
  intros Hk Hd. unfold of_dicts.
  assert (Hc : union_keys (records k1 k2 d) = [k1; k2]).
  { unfold union_keys. rewrite records_keys.
    destruct d as [ | kv d]; [contradiction | ].
    cbn [List.length List.repeat List.concat app fold_left].
    cbn [existsb app]. destruct (String.eqb_spec k2 k1) as [E | _]; [congruence | ].
    cbn [orb app].
    apply union_keys_pair; cbn; rewrite String.eqb_refl; [reflexivity | ].
    now rewrite orb_true_r. }
  rewrite Hc. f_equal. f_equal. unfold records. rewrite map_map.
  apply map_ext. intros [k v]. cbn.
  rewrite String.eqb_refl.
  destruct (String.eqb_spec k1 k2) as [E | _]; [contradiction | ].
  now rewrite String.eqb_refl.
Qed.

Lemma frame_of_dict_witness :
  of_dicts (records col_juris col_vets vets_active_2023_24)
  = {| columns := [col_juris; col_vets];
       rows := number_from 0 (map (fun kv => [CStr (fst kv); CInt (snd kv)])
                                  vets_active_2023_24) |}.
Proof.
  apply (frame_of_dict col_juris col_vets vets_active_2023_24).
  - discriminate.
  - discriminate.
Defined.
